(** * Camera-session management of the crowd-monitoring server (app.py)

    A shallow embedding of the per-gate camera sessions of [app.py]:
    the module-level dictionaries, the camera worker thread, the
    connect / disconnect / status request handlers and the mobile health
    check, followed by the properties of the specification that concern
    them.

    Conventions of the embedding.
    - The module-level dictionaries are finite maps keyed by gate id.
    - [time.time()] is an integer number of milliseconds; the frame
      interval [1.0 / TARGET_FPS] is 100 and the staleness bound of the
      health check is 10000.
    - Collaborators outside the session core (OpenCV capture, the YOLO
      detector, JPEG encoding, [int()], [is_valid_url]) contribute the
      values they return, collected in an [Env] record, one per worker step.
    - A worker thread advances in steps: the acquisition of the capture
      (everything before the [while] loop) is one step, every trip through
      the [while] loop, beginning with its condition, is one step.
    - [thread.join(timeout)] lets the joined worker take the steps of a
      finite schedule; the timeout strikes when the schedule is used up and
      the worker is still alive.
    - In [exec], request handlers and passes of the health check run one
      at a time and without a step of another thread between their
      statements, except for the joined worker during a join; the steps of
      the workers are interleaved between them at will.  The disconnection
      of all gates is also given statement by statement ([handler_step]),
      for any interleaving of its statements with the steps of the workers.
    - A string is the sequence of the code points of its characters, all
      below 256. *)

From Stdlib Require Import ZArith Floats Ascii String.
From stdpp Require Import gmap strings list fin_maps pretty.
Open Scope Z_scope.

#[local] Set Warnings "-clear-no-such-hyp,-register-all".

(** ** Gate registry and performance settings *)

Record GateDescriptor := {
  capacity : Z;
  gate_name : string;
  position : string
}.

Definition GATE_CONFIG : list (string * GateDescriptor) :=
  [ ("A", {| capacity := 200; gate_name := "Gate A"; position := "top" |});
    ("B", {| capacity := 300; gate_name := "Gate B"; position := "left-top" |});
    ("C", {| capacity := 250; gate_name := "Gate C"; position := "right-top" |});
    ("D", {| capacity := 350; gate_name := "Gate D"; position := "left-bottom" |});
    ("E", {| capacity := 300; gate_name := "Gate E"; position := "right-bottom" |});
    ("F", {| capacity := 400; gate_name := "Gate F"; position := "bottom" |});
    ("Temple", {| capacity := 1000; gate_name := "Temple Area"; position := "center" |}) ].

(** [GATE_CONFIG[gate_id]]; [None] stands for the [KeyError]. *)
Fixpoint config_get (cfg : list (string * GateDescriptor)) (gate_id : string)
  : option GateDescriptor :=
  match cfg with
  | [] => None
  | (k, d) :: rest => if String.eqb k gate_id then Some d else config_get rest gate_id
  end.

Definition TARGET_FPS : Z := 10.
Definition PROCESS_EVERY_N_FRAMES : Z := 2.
Definition max_retries : Z := 10.

(** [1.0 / TARGET_FPS] seconds, in milliseconds. *)
Definition frame_interval : Z := 1000 / TARGET_FPS.

(** The staleness bound [10] (seconds) of the health check, in milliseconds. *)
Definition stale_after : Z := 10000.

(** ** Occupancy classification (camera_worker, lines 289-294) *)

Inductive occupancy := normal | warning | overcrowded | disconnected.

#[global] Instance occupancy_eq_dec : EqDecision occupancy.
Proof. solve_decision. Defined.

(** Python converts the int operand of [capacity * 0.8] to the nearest
    binary64 value (ties to even). *)
Definition float_of_int (n : Z) : float :=
  SF2Prim (binary_normalize 53 1024 n 0 false).

(** The literal [0.8] denotes the double 0x1.999999999999ap-1. *)
Definition zero_point_eight : float := 0x1.999999999999ap-1%float.

(** [n > f] for an int [n] and a float [f]: Python compares the two
    numbers exactly, without rounding the int. *)
Definition int_gt_float (n : Z) (f : float) : bool :=
  match Prim2SF f with
  | S754_zero _ => n >? 0
  | S754_infinity s => s
  | S754_nan => false
  | S754_finite s m e =>
      let v := if s then Z.neg m else Z.pos m in
      if 0 <=? e then n >? v * 2 ^ e else n * 2 ^ (- e) >? v
  end.

Definition classify (people_count capacity : Z) : occupancy :=
  if people_count >? capacity then overcrowded
  else if int_gt_float people_count (PrimFloat.mul (float_of_int capacity) zero_point_eight)
  then warning
  else normal.

(** ** Published results and the shared dictionaries *)

(** An item of a gate's queue: the dict a worker puts.  Error items carry
    only [error], [count] and [status]. *)
Record GateStatus := {
  r_error : option string;
  r_count : Z;
  r_status : occupancy;
  r_frame : option string;
  r_timestamp : option Z;
  r_is_mobile : option bool
}.

(** A value of a JSON request body; a number is kept as its literal. *)
Inductive json :=
  | JNull
  | JBool (b : bool)
  | JNumber (literal : string)
  | JString (s : string)
  | JArray (items : list json)
  | JObject (members : list (string * json)).

(** [stream_url] is whatever value the request carried. *)
Record MobileRegistration := {
  stream_url : json;
  m_device_name : option string;
  registered_at : option Z
}.

Inductive pc := Starting | Running | Stopped.

#[global] Instance pc_eq_dec : EqDecision pc.
Proof. solve_decision. Defined.

(** The locals of one [camera_worker] activation.  [w_detections] is an
    instrumentation counter of the calls to [detect_people_yolov8]. *)
Record Worker := {
  w_gate_id : string;
  w_camera_source : string;
  w_pc : pc;
  w_cap : option nat;
  w_is_mobile : bool;
  w_last_processed_time : Z;
  w_frame_count : Z;
  w_retry_count : Z;
  w_detections : nat
}.

(** The process state.  Threads are numbered in the order of their
    creation ([workers] is indexed by thread number).  A worker opens at
    most one capture, so a capture handle is named by the number of the
    thread that opened it; [open_caps] are the handles opened and not yet
    released. *)
Record State := {
  active_cameras : gmap string bool;
  camera_queues : gmap string (list GateStatus);
  camera_threads : gmap string nat;
  camera_captures : gmap string nat;
  camera_last_update : gmap string Z;
  mobile_devices : gmap string MobileRegistration;
  workers : list Worker;
  open_caps : gset nat
}.

Definition init : State :=
  {| active_cameras := ∅; camera_queues := ∅; camera_threads := ∅;
     camera_captures := ∅; camera_last_update := ∅; mobile_devices := ∅;
     workers := []; open_caps := ∅ |}.

Definition with_active (m : gmap string bool) (st : State) : State :=
  {| active_cameras := m; camera_queues := camera_queues st;
     camera_threads := camera_threads st; camera_captures := camera_captures st;
     camera_last_update := camera_last_update st; mobile_devices := mobile_devices st;
     workers := workers st; open_caps := open_caps st |}.

Definition with_queues (m : gmap string (list GateStatus)) (st : State) : State :=
  {| active_cameras := active_cameras st; camera_queues := m;
     camera_threads := camera_threads st; camera_captures := camera_captures st;
     camera_last_update := camera_last_update st; mobile_devices := mobile_devices st;
     workers := workers st; open_caps := open_caps st |}.

Definition with_threads (m : gmap string nat) (st : State) : State :=
  {| active_cameras := active_cameras st; camera_queues := camera_queues st;
     camera_threads := m; camera_captures := camera_captures st;
     camera_last_update := camera_last_update st; mobile_devices := mobile_devices st;
     workers := workers st; open_caps := open_caps st |}.

Definition with_captures (m : gmap string nat) (o : gset nat) (st : State) : State :=
  {| active_cameras := active_cameras st; camera_queues := camera_queues st;
     camera_threads := camera_threads st; camera_captures := m;
     camera_last_update := camera_last_update st; mobile_devices := mobile_devices st;
     workers := workers st; open_caps := o |}.

Definition with_last_update (m : gmap string Z) (st : State) : State :=
  {| active_cameras := active_cameras st; camera_queues := camera_queues st;
     camera_threads := camera_threads st; camera_captures := camera_captures st;
     camera_last_update := m; mobile_devices := mobile_devices st;
     workers := workers st; open_caps := open_caps st |}.

Definition with_mobile (m : gmap string MobileRegistration) (st : State) : State :=
  {| active_cameras := active_cameras st; camera_queues := camera_queues st;
     camera_threads := camera_threads st; camera_captures := camera_captures st;
     camera_last_update := camera_last_update st; mobile_devices := m;
     workers := workers st; open_caps := open_caps st |}.

Definition with_workers (l : list Worker) (st : State) : State :=
  {| active_cameras := active_cameras st; camera_queues := camera_queues st;
     camera_threads := camera_threads st; camera_captures := camera_captures st;
     camera_last_update := camera_last_update st; mobile_devices := mobile_devices st;
     workers := l; open_caps := open_caps st |}.

(** ** The text of a Python string *)

Definition squote : ascii := ascii_of_nat 39.
Definition dquote : ascii := ascii_of_nat 34.
Definition backslash : ascii := ascii_of_nat 92.

(** A digit of [0123456789abcdef]. *)
Definition hexdigit (n : N) : ascii :=
  ascii_of_N (if (n <? 10)%N then 48 + n else 87 + n).

Definition hex_escape (n : N) : string :=
  String backslash
    (String "x"%char (String (hexdigit (n / 16)) (String (hexdigit (n mod 16)) ""))).

Fixpoint occurs (c : ascii) (s : string) : bool :=
  match s with
  | EmptyString => false
  | String a rest => Ascii.eqb a c || occurs c rest
  end.

(** One character of [repr(s)]: the quote and the backslash are escaped,
    tab, line feed and carriage return have their letters, the other
    characters that are not printable (below 32, 127 to 160, and 173) are
    written [\xhh], every other character stands for itself. *)
Definition repr_char (quote ch : ascii) : string :=
  let n := N_of_ascii ch in
  if Ascii.eqb ch quote || Ascii.eqb ch backslash then String backslash (String ch "")
  else if (n =? 9)%N then String backslash "t"
  else if (n =? 10)%N then String backslash "n"
  else if (n =? 13)%N then String backslash "r"
  else if (n <? 32)%N || (n =? 127)%N then hex_escape n
  else if (n <? 127)%N then String ch ""
  else if (n <=? 160)%N || (n =? 173)%N then hex_escape n
  else String ch "".

Fixpoint repr_body (quote : ascii) (s : string) : string :=
  match s with
  | EmptyString => ""
  | String ch rest => repr_char quote ch +:+ repr_body quote rest
  end.

(** [repr(s)] of a [str]: in single quotes, or in double quotes when the
    string has a single quote and no double quote.  [str(KeyError(s))] is
    [repr(s)]. *)
Definition repr (s : string) : string :=
  let quote := if occurs squote s && negb (occurs dquote s) then dquote else squote in
  String quote (repr_body quote s +:+ String quote "").

(** ** The camera worker (camera_worker, lines 150-336) *)

(** What the collaborators answer during one worker step. *)
Record Env := {
  e_now : Z;                 (* time.time() *)
  e_raise : option string;   (* str(e) of an exception raised by the capture *)
  e_int : option Z;          (* int(camera_source); None is the ValueError *)
  e_valid_url : bool;        (* is_valid_url(camera_source) *)
  e_opened : bool;           (* cap.isOpened() *)
  e_ret : bool;              (* ret of cap.read() *)
  e_people : Z;              (* detect_people_yolov8(frame) *)
  e_jpeg : option string     (* base64 text of the preview; None when encoding raises *)
}.

Definition error_item (msg : string) : GateStatus :=
  {| r_error := Some msg; r_count := 0; r_status := disconnected;
     r_frame := None; r_timestamp := None; r_is_mobile := None |}.

(** [if gate_id in camera_queues: camera_queues[gate_id].put(item)] *)
Definition publish (gate_id : string) (item : GateStatus) (st : State) : State :=
  match camera_queues st !! gate_id with
  | Some q => with_queues (<[gate_id := q ++ [item]]> (camera_queues st)) st
  | None => st
  end.

(** The [finally] clause (lines 329-336): whatever handle is registered
    for the gate is released and its entry deleted. *)
Definition finally_release (gate_id : string) (st : State) : State :=
  match camera_captures st !! gate_id with
  | Some h => with_captures (delete gate_id (camera_captures st)) (open_caps st ∖ {[h]}) st
  | None => st
  end.

Definition w_update (w : Worker) (p : pc) (cap : option nat) (mob : bool)
    (last fc rc : Z) (det : nat) : Worker :=
  {| w_gate_id := w_gate_id w; w_camera_source := w_camera_source w; w_pc := p;
     w_cap := cap; w_is_mobile := mob; w_last_processed_time := last;
     w_frame_count := fc; w_retry_count := rc; w_detections := det |}.

Definition w_stop (w : Worker) : Worker :=
  w_update w Stopped (w_cap w) (w_is_mobile w) (w_last_processed_time w)
    (w_frame_count w) (w_retry_count w) (w_detections w).

Definition set_worker (tid : nat) (w : Worker) (st : State) : State :=
  with_workers (<[tid := w]> (workers st)) st.

(** Leaving [camera_worker]: by [return], by falling out of the loop or
    through the [except] clause, the [finally] clause runs in all cases. *)
Definition worker_exit (tid : nat) (w : Worker) (st : State) : State :=
  set_worker tid (w_stop w) (finally_release (w_gate_id w) st).

Definition worker_fail (tid : nat) (w : Worker) (msg : string) (st : State) : State :=
  worker_exit tid w (publish (w_gate_id w) (error_item msg) st).

(** Line 240 and the two assignments after it. *)
Definition register_capture (tid : nat) (w : Worker) (mob : bool) (st : State) : State :=
  set_worker tid
    (w_update w Running (Some tid) mob (w_last_processed_time w) (w_frame_count w) 0
       (w_detections w))
    (with_captures (<[w_gate_id w := tid]> (camera_captures st)) (open_caps st ∪ {[tid]}) st).

(** Lines 152-242.  Both ways of registering a mobile stream store a
    [stream_url], so the test ['stream_url' in mobile_config] succeeds and
    the guard of line 229 is never taken after a successful open. *)
Definition acquire (tid : nat) (w : Worker) (e : Env) (st : State) : State :=
  let gate_id := w_gate_id w in
  let camera_source := w_camera_source w in
  match e_raise e with
  | Some msg => worker_fail tid w ("Camera error: " +:+ msg) st
  | None =>
      if bool_decide (is_Some (mobile_devices st !! gate_id))
         && String.eqb camera_source "mobile"
      then
        if e_opened e then register_capture tid w true st
        else worker_fail tid w "Failed to connect to mobile camera. Please check the URL." st
      else
        match e_int e with
        | Some camera_index =>
            if e_opened e then register_capture tid w false st
            else worker_fail tid w
                   ("Could not open webcam " +:+ pretty camera_index
                      +:+ ". Please check if camera is connected.") st
        | None =>
            if e_valid_url e then
              if e_opened e then register_capture tid w false st
              else worker_fail tid w ("Failed to connect to camera URL: " +:+ camera_source) st
            else worker_fail tid w ("Invalid camera source: " +:+ camera_source) st
        end
  end.

Definition frame_data (e : Env) : string :=
  match e_jpeg e with
  | Some jpg_as_text => "data:image/jpeg;base64," +:+ jpg_as_text
  | None => ""
  end.

(** One trip through the [while] loop (lines 244-318), condition included. *)
Definition iterate (tid : nat) (w : Worker) (e : Env) (st : State) : State :=
  let gate_id := w_gate_id w in
  if negb (bool_decide (active_cameras st !! gate_id = Some true)) then worker_exit tid w st
  else
    let current_time := e_now e in
    if current_time - w_last_processed_time w <? frame_interval then st
    else
      match e_raise e with
      | Some msg => worker_fail tid w ("Camera error: " +:+ msg) st
      | None =>
          if negb (e_ret e) then
            let retry_count := w_retry_count w + 1 in
            if retry_count >? max_retries then
              worker_fail tid
                (w_update w Running (w_cap w) (w_is_mobile w) (w_last_processed_time w)
                   (w_frame_count w) retry_count (w_detections w))
                "Camera stream disconnected. Please reconnect." st
            else
              set_worker tid
                (w_update w Running (w_cap w) (w_is_mobile w) (w_last_processed_time w)
                   (w_frame_count w) retry_count (w_detections w)) st
          else
            let frame_count := w_frame_count w + 1 in
            if frame_count mod PROCESS_EVERY_N_FRAMES =? 0 then
              let people_count := e_people e in
              let detections := S (w_detections w) in
              match camera_queues st !! gate_id with
              | Some q =>
                  match config_get GATE_CONFIG gate_id with
                  | Some d =>
                      let item :=
                        {| r_error := None; r_count := people_count;
                           r_status := classify people_count (capacity d);
                           r_frame := Some (frame_data e);
                           r_timestamp := Some current_time;
                           r_is_mobile := Some (w_is_mobile w) |} in
                      set_worker tid
                        (w_update w Running (w_cap w) (w_is_mobile w) current_time
                           frame_count 0 detections)
                        (with_queues (<[gate_id := q ++ [item]]> (camera_queues st)) st)
                  | None =>
                      (* KeyError of GATE_CONFIG[gate_id] *)
                      worker_fail tid
                        (w_update w Running (w_cap w) (w_is_mobile w)
                           (w_last_processed_time w) frame_count 0 detections)
                        ("Camera error: " +:+ repr gate_id) st
                  end
              | None =>
                  set_worker tid
                    (w_update w Running (w_cap w) (w_is_mobile w)
                       (w_last_processed_time w) frame_count 0 detections) st
              end
            else
              set_worker tid
                (w_update w Running (w_cap w) (w_is_mobile w) (w_last_processed_time w)
                   frame_count 0 (w_detections w)) st
      end.

Definition worker_step (tid : nat) (e : Env) (st : State) : State :=
  match workers st !! tid with
  | Some w =>
      match w_pc w with
      | Starting => acquire tid w e st
      | Running => iterate tid w e st
      | Stopped => st
      end
  | None => st
  end.

(** [thread.is_alive()] *)
Definition is_alive (st : State) (tid : nat) : bool :=
  match workers st !! tid with
  | Some w => negb (bool_decide (w_pc w = Stopped))
  | None => false
  end.

(** [thread.join(timeout=...)], entered only when the thread is alive:
    the joined worker runs until it has stopped or the schedule is
    exhausted (the timeout). *)
Fixpoint join (tid : nat) (sched : list Env) (st : State) : State :=
  match sched with
  | [] => st
  | e :: rest => if is_alive st tid then join tid rest (worker_step tid e st) else st
  end.

(** [threading.Thread(target=camera_worker, args=(gate_id, camera_source))]
    followed by [start()]: the new thread has not run yet. *)
Definition new_worker (gate_id camera_source : string) : Worker :=
  {| w_gate_id := gate_id; w_camera_source := camera_source; w_pc := Starting;
     w_cap := None; w_is_mobile := false; w_last_processed_time := 0;
     w_frame_count := 0; w_retry_count := 0; w_detections := 0 |}.

Definition spawn (gate_id camera_source : string) (st : State) : State :=
  with_threads (<[gate_id := length (workers st)]> (camera_threads st))
    (with_workers (workers st ++ [new_worker gate_id camera_source]) st).

(** ** Request handlers and the health check *)

Inductive reply := success | bad_request.

(** [active_cameras[gate_id] = False], then the join if the gate has a
    thread that is alive (lines 393-395, 352-354, 469-471, 491-493). *)
Definition signal_and_join (gate_id : string) (sched : list Env) (st : State) : State :=
  let st1 := with_active (<[gate_id := false]> (active_cameras st)) st in
  match camera_threads st1 !! gate_id with
  | Some thread => join thread sched st1
  | None => st1
  end.

(** The JSON body of a connect request: the gate id ([None] when the key
    is absent or null), the camera source and the camera type (['webcam']
    when the key is absent), which are strings, and the value under the key
    ['stream_url'] when the body has that key. *)
Record ConnectRequest := {
  q_gate_id : option string;
  q_camera_source : string;
  q_camera_type : string;
  q_stream_url : option json   (* None: the body has no key 'stream_url' *)
}.

(** connect_camera (lines 380-424); [now] is the [time.time()] of line 400. *)
Definition connect_camera (data : ConnectRequest) (now : Z) (sched : list Env)
    (st : State) : State * reply :=
  match q_gate_id data with
  | None => (st, bad_request)
  | Some gate_id =>
      if String.eqb gate_id "" then (st, bad_request)
      else
        let st1 :=
          if bool_decide (is_Some (active_cameras st !! gate_id))
          then signal_and_join gate_id sched st else st in
        let st2 := with_queues (<[gate_id := []]> (camera_queues st1)) st1 in
        let st3 := with_active (<[gate_id := true]> (active_cameras st2)) st2 in
        let st4 := with_last_update (<[gate_id := now]> (camera_last_update st3)) st3 in
        match (if String.eqb (q_camera_type data) "mobile" then q_stream_url data else None) with
        | Some url =>
            let st5 :=
              with_mobile
                (<[gate_id := {| stream_url := url; m_device_name := None;
                                 registered_at := None |}]> (mobile_devices st4)) st4 in
            (spawn gate_id "mobile" st5, success)
        | None => (spawn gate_id (q_camera_source data) st4, success)
        end
  end.

(** register_mobile (lines 427-457); [valid] is [is_valid_url(stream_url)]. *)
Definition register_mobile (gate_id url : option string) (device_name : option string)
    (valid : bool) (now : Z) (st : State) : State * reply :=
  match gate_id, url with
  | Some g, Some u =>
      if String.eqb g "" || String.eqb u "" then (st, bad_request)
      else if negb valid then (st, bad_request)
      else
        (with_mobile
           (<[g := {| stream_url := JString u;
                      m_device_name := Some (default "Mobile Device" device_name);
                      registered_at := Some now |}]> (mobile_devices st)) st, success)
  | _, _ => (st, bad_request)
  end.

(** The clean-up of one gate (lines 473-485 and 495-507). *)
Definition clean_up (gid : string) (st : State) : State :=
  let st1 := with_queues (delete gid (camera_queues st)) st in
  let st2 := with_threads (delete gid (camera_threads st1)) st1 in
  let st3 := with_active (delete gid (active_cameras st2)) st2 in
  let st4 :=
    match camera_captures st3 !! gid with
    | Some h => with_captures (delete gid (camera_captures st3)) (open_caps st3 ∖ {[h]}) st3
    | None => st3
    end in
  with_last_update (delete gid (camera_last_update st4)) st4.

Definition disconnect_gate (gid : string) (sched : list Env) (st : State) : State :=
  clean_up gid (signal_and_join gid sched st).

(** disconnect_camera (lines 460-513).  [scheds gid] is the schedule of the
    join on [gid]'s thread.  The gates of ["all"] are visited in the
    order in which the finite map enumerates its keys.  No other thread runs
    between the statements of the clean-up here; [handler_step] below has
    the disconnection of all gates with the workers running meanwhile. *)
Definition disconnect_camera (gate_id : option string) (scheds : string → list Env)
    (st : State) : State :=
  match gate_id with
  | Some g =>
      if String.eqb g "all" then
        foldl (λ s gid, disconnect_gate gid (scheds gid) s) st
          (elements (dom (active_cameras st)))
      else if bool_decide (is_Some (active_cameras st !! g))
      then disconnect_gate g (scheds g) st
      else st
  | None => st
  end.

(** The body of the [for] loop of check_mobile_camera_health (lines 343-362). *)
Definition health_gate (now : Z) (gate_id : string) (sched : list Env) (st : State) : State :=
  if bool_decide (active_cameras st !! gate_id = Some true)
     && match camera_queues st !! gate_id with Some [] => true | _ => false end
  then
    match camera_last_update st !! gate_id with
    | Some last =>
        if now - last >? stale_after then
          let st1 := signal_and_join gate_id sched st in
          let st2 := with_queues (<[gate_id := []]> (camera_queues st1)) st1 in
          let st3 := with_active (<[gate_id := true]> (active_cameras st2)) st2 in
          spawn gate_id "mobile" st3
        else st
    | None => st
    end
  else st.

(** One pass of check_mobile_camera_health (lines 342-362), between two
    of its sleeps. *)
Definition check_mobile_camera_health (now : Z) (scheds : string → list Env)
    (st : State) : State :=
  foldl (λ s gate_id, health_gate now gate_id (scheds gate_id) s) st
    (elements (dom (mobile_devices st))).

(** An entry of the dict returned by get_camera_status. *)
Record StatusEntry := {
  s_connected : bool;
  s_count : Z;
  s_status : occupancy;
  s_frame : string;
  s_camera_type : string;
  s_error : string;
  s_device_name : option string;
  s_timestamp : option Z;
  s_is_mobile : option bool
}.

(** The body of the [for] loop of get_camera_status for a gate other than
    'Temple' (lines 523-550). *)
Definition status_gate (now : Z) (gate_id : string) (st : State) : State * StatusEntry :=
  let connected := bool_decide (active_cameras st !! gate_id = Some true) in
  let camera_type :=
    match mobile_devices st !! gate_id with Some _ => "mobile" | None => "webcam" end in
  let device_name :=
    match mobile_devices st !! gate_id with
    | Some m => Some (default "Mobile Device" (m_device_name m))
    | None => None
    end in
  match camera_queues st !! gate_id with
  | Some (data :: rest) =>
      (with_last_update (<[gate_id := now]> (camera_last_update st))
         (with_queues (<[gate_id := rest]> (camera_queues st)) st),
       {| s_connected := connected; s_count := r_count data; s_status := r_status data;
          s_frame := default "" (r_frame data); s_camera_type := camera_type;
          s_error := default "" (r_error data); s_device_name := device_name;
          s_timestamp := Some (default now (r_timestamp data));
          s_is_mobile := Some (default false (r_is_mobile data)) |})
  | _ =>
      (st,
       {| s_connected := connected; s_count := 0; s_status := disconnected;
          s_frame := ""; s_camera_type := camera_type; s_error := "";
          s_device_name := device_name; s_timestamp := None; s_is_mobile := None |})
  end.

Fixpoint status_loop (gates : list string) (now : Z) (st : State)
  : State * list (string * StatusEntry) :=
  match gates with
  | [] => (st, [])
  | gate_id :: rest =>
      if String.eqb gate_id "Temple" then status_loop rest now st
      else
        let r := status_gate now gate_id st in
        let rs := status_loop rest now (fst r) in
        (fst rs, (gate_id, snd r) :: snd rs)
  end.

(** get_camera_status (lines 516-552): the dict, in the order of its keys. *)
Definition get_camera_status (now : Z) (st : State) : State * list (string * StatusEntry) :=
  status_loop (map fst GATE_CONFIG) now st.

(** [status[gate_id]] in the reply; [None] when the reply has no such key. *)
Fixpoint entry_of (gate_id : string) (reply : list (string * StatusEntry))
  : option StatusEntry :=
  match reply with
  | [] => None
  | (k, s) :: rest => if String.eqb k gate_id then Some s else entry_of gate_id rest
  end.

(** ** Executions *)

Inductive op :=
  | Connect (data : ConnectRequest) (now : Z) (sched : list Env)
  | RegisterMobile (gate_id url device_name : option string) (valid : bool) (now : Z)
  | Disconnect (gate_id : option string) (scheds : string → list Env)
  | GetStatus (now : Z)
  | HealthCheck (now : Z) (scheds : string → list Env)
  | WorkerStep (tid : nat) (e : Env).

Definition exec (o : op) (st : State) : State :=
  match o with
  | Connect data now sched => fst (connect_camera data now sched st)
  | RegisterMobile g u d valid now => fst (register_mobile g u d valid now st)
  | Disconnect g scheds => disconnect_camera g scheds st
  | GetStatus now => fst (get_camera_status now st)
  | HealthCheck now scheds => check_mobile_camera_health now scheds st
  | WorkerStep tid e => worker_step tid e st
  end.

Definition run (ops : list op) (st : State) : State := foldl (λ s o, exec o s) st ops.

(** The states of the runs in which the request handlers and the passes
    of the health check execute one at a time, as [exec] has them, with
    steps of the workers at will between them. *)
Definition reachable (st : State) : Prop := ∃ ops, st = run ops init.

(** The threads of a gate that are alive, by thread number. *)
Definition live_workers (gate_id : string) (st : State) : list nat :=
  filter (λ tid, match workers st !! tid with
                 | Some w => bool_decide (w_gate_id w = gate_id ∧ w_pc w ≠ Stopped)
                 | None => false
                 end = true)
         (seq 0 (length (workers st))).

(** ** Notions used in the statements *)




(** The capacities up to which [threshold_exact] is checked by evaluation. *)
Definition exact_capacity_bound : Z := 100000.

(** The worker [tid] alone takes one step per element of [envs]. *)
Definition run_worker (tid : nat) (envs : list Env) (st : State) : State :=
  foldl (λ s e, worker_step tid e s) st envs.

(** The trip through the loop reaches [cap.read()]: rate governance does
    not skip it and no collaborator raises. *)
Definition reads (w : Worker) (e : Env) : Prop :=
  frame_interval <= e_now e - w_last_processed_time w ∧ e_raise e = None.

Definition failed_read (w : Worker) (e : Env) : Prop := reads w e ∧ e_ret e = false.

Definition good_read (w : Worker) (e : Env) : Prop := reads w e ∧ e_ret e = true.

(** Every step of the schedule is a trip through the loop of worker [tid]
    that reads a frame successfully. *)
Fixpoint all_good_reads (tid : nat) (envs : list Env) (st : State) : Prop :=
  match envs with
  | [] => True
  | e :: rest =>
      (∃ w, workers st !! tid = Some w ∧ good_read w e)
      ∧ all_good_reads tid rest (worker_step tid e st)
  end.

(** The worker's record after [k] consecutive failed reads. *)
Definition with_retries (k : Z) (w : Worker) : Worker :=
  w_update w Running (w_cap w) (w_is_mobile w) (w_last_processed_time w)
    (w_frame_count w) k (w_detections w).

(** A collaborator environment for examples: the source is webcam 0, the
    capture opens, the detector counts 42 people. *)
Definition sample_env (now : Z) (ret : bool) : Env :=
  {| e_now := now; e_raise := None; e_int := Some 0; e_valid_url := false;
     e_opened := true; e_ret := ret; e_people := 42; e_jpeg := Some "/9j/" |}.

(** As [sample_env], for the webcam of index [i]. *)
Definition index_env (i now : Z) (ret : bool) : Env :=
  {| e_now := now; e_raise := None; e_int := Some i; e_valid_url := false;
     e_opened := true; e_ret := ret; e_people := 42; e_jpeg := Some "/9j/" |}.

Definition webcam_request (gate_id camera_source : string) : ConnectRequest :=
  {| q_gate_id := Some gate_id; q_camera_source := camera_source;
     q_camera_type := "webcam"; q_stream_url := None |}.

Definition mobile_request (gate_id url : string) : ConnectRequest :=
  {| q_gate_id := Some gate_id; q_camera_source := "";
     q_camera_type := "mobile"; q_stream_url := Some (JString url) |}.

(** A request of type mobile whose body has [stream_url: null]. *)
Definition null_stream_request (gate_id camera_source : string) : ConnectRequest :=
  {| q_gate_id := Some gate_id; q_camera_source := camera_source;
     q_camera_type := "mobile"; q_stream_url := Some JNull |}.

(** No joined worker makes progress within the timeout. *)
Definition no_progress : string → list Env := λ _, [].

(** Gate A connected to webcam 0 at time 1000, its worker (thread 0)
    past the acquisition and about to enter the loop. *)
Definition sample_session : State :=
  run [Connect (webcam_request "A" "0") 1000 []; WorkerStep 0 (sample_env 1000 true)] init.

Definition sample_worker : Worker :=
  {| w_gate_id := "A"; w_camera_source := "0"; w_pc := Running; w_cap := Some 0%nat;
     w_is_mobile := false; w_last_processed_time := 0; w_frame_count := 0;
     w_retry_count := 0; w_detections := 0 |}.

(** Gate A connected at time 1000 and B at time 1100; the worker of A
    has published two results and a status query has taken the first; the
    worker of B has opened its capture and published nothing yet, so the
    queue of B is there and empty. *)
Definition empty_queue_session : State :=
  run [Connect (webcam_request "A" "0") 1000 []; WorkerStep 0 (sample_env 1000 true);
       Connect (webcam_request "B" "1") 1100 []; WorkerStep 1 (index_env 1 1100 true);
       WorkerStep 0 (sample_env 1100 true); WorkerStep 0 (sample_env 1110 true);
       WorkerStep 0 (sample_env 1300 true); WorkerStep 0 (sample_env 1310 true);
       GetStatus 1350] init.

(** The number of detector calls worker [tid] has made. *)
Definition detections_of (tid : nat) (st : State) : nat :=
  match workers st !! tid with
  | Some w => w_detections w
  | None => 0
  end.

(** Every thread registered for a gate was started for that gate. *)
Definition threads_wf (st : State) : Prop :=
  ∀ g t, camera_threads st !! g = Some t → w_gate_id <$> workers st !! t = Some g.

(** Queues, threads and timestamps are kept for gates of the session
    table only. *)
Definition wf (st : State) : Prop :=
  threads_wf st
  ∧ dom (camera_queues st) ⊆ dom (active_cameras st)
  ∧ dom (camera_threads st) ⊆ dom (active_cameras st)
  ∧ dom (camera_last_update st) ⊆ dom (active_cameras st).

(** What the steps of a worker of gate [g] can change: the contents of
    the queue of [g] (never the set of queues), the capture entry of [g], the
    open handles and the locals of workers. *)
Definition worker_frame (g : string) (st st' : State) : Prop :=
  active_cameras st' = active_cameras st
  ∧ camera_threads st' = camera_threads st
  ∧ camera_last_update st' = camera_last_update st
  ∧ mobile_devices st' = mobile_devices st
  ∧ w_gate_id <$> workers st' = w_gate_id <$> workers st
  ∧ dom (camera_queues st') = dom (camera_queues st)
  ∧ ∀ g', g' ≠ g → camera_queues st' !! g' = camera_queues st !! g'
                  ∧ camera_captures st' !! g' = camera_captures st !! g'.

(** As [sample_env], for a capture that does not open. *)
Definition closed_env (now : Z) : Env :=
  {| e_now := now; e_raise := None; e_int := None; e_valid_url := true;
     e_opened := false; e_ret := false; e_people := 0; e_jpeg := None |}.

(** Gates A and B connected; the worker of A is in its loop, the worker
    of B still acquires its capture. *)
Definition two_sessions : State :=
  run [Connect (webcam_request "A" "0") 1000 []; WorkerStep 0 (sample_env 1000 true);
       Connect (webcam_request "B" "1") 1500 []] init.

(** ** The disconnection of all gates, statement by statement *)

(** The statements of the loop body of lines 469-485 between which the
    scheduler may run the workers.  A test [if gid in d] and the [del d[gid]]
    it guards are one statement for the dictionaries whose keys no worker
    writes; the workers insert and delete keys of [camera_captures], so its
    four lines are four statements. *)
Inductive dpc :=
  | DSignal        (* 469: active_cameras[gid] = False *)
  | DJoin          (* 470-471: the test and the join *)
  | DQueues        (* 474-475 *)
  | DThreads       (* 476-477 *)
  | DActive        (* 478-479 *)
  | DCapTest       (* 480: gid in camera_captures *)
  | DCapTruth      (* 481: camera_captures[gid] *)
  | DCapRelease    (* 482: camera_captures[gid].release() *)
  | DCapDel        (* 483: del camera_captures[gid] *)
  | DLastUpdate.   (* 484-485 *)

(** Where the handler is: in the loop body for [gid] with the gates
    [rest] still to visit, at the success reply of line 487, or in the
    [except] clause of line 511 (the reply 500) after a [KeyError]. *)
Inductive handler :=
  | At (gid : string) (pc : dpc) (rest : list string)
  | Done
  | Raised.

Definition next_gate (gids : list string) : handler :=
  match gids with
  | [] => Done
  | gid :: rest => At gid DSignal rest
  end.

(** One statement of the handler.  At [DJoin] it is the return of the
    join (or the failed test of line 470): the thread has ended or the
    timeout has struck.  A subscript of [camera_captures] with an absent key
    raises the [KeyError]. *)
Definition handler_step (h : handler) (st : State) : handler * State :=
  match h with
  | At gid pc rest =>
      match pc with
      | DSignal => (At gid DJoin rest, with_active (<[gid := false]> (active_cameras st)) st)
      | DJoin => (At gid DQueues rest, st)
      | DQueues => (At gid DThreads rest, with_queues (delete gid (camera_queues st)) st)
      | DThreads => (At gid DActive rest, with_threads (delete gid (camera_threads st)) st)
      | DActive => (At gid DCapTest rest, with_active (delete gid (active_cameras st)) st)
      | DCapTest =>
          (At gid (if bool_decide (is_Some (camera_captures st !! gid))
                   then DCapTruth else DLastUpdate) rest, st)
      | DCapTruth =>
          match camera_captures st !! gid with
          | Some _ => (At gid DCapRelease rest, st)
          | None => (Raised, st)
          end
      | DCapRelease =>
          match camera_captures st !! gid with
          | Some h => (At gid DCapDel rest,
                       with_captures (camera_captures st) (open_caps st ∖ {[h]}) st)
          | None => (Raised, st)
          end
      | DCapDel =>
          match camera_captures st !! gid with
          | Some _ => (At gid DLastUpdate rest,
                       with_captures (delete gid (camera_captures st)) (open_caps st) st)
          | None => (Raised, st)
          end
      | DLastUpdate =>
          (next_gate rest, with_last_update (delete gid (camera_last_update st)) st)
      end
  | Done => (Done, st)
  | Raised => (Raised, st)
  end.

(** What the scheduler runs next: a statement of the handler or a step
    of a worker. *)
Inductive event :=
  | HandlerStep
  | WorkerRuns (tid : nat) (e : Env).

Definition interleave_step (c : handler * State) (ev : event) : handler * State :=
  match ev with
  | HandlerStep => handler_step (fst c) (snd c)
  | WorkerRuns tid e => (fst c, worker_step tid e (snd c))
  end.

Definition interleave (evs : list event) (c : handler * State) : handler * State :=
  foldl interleave_step c evs.

(** The disconnection of "all" (lines 466-487) under the interleaving
    [evs] of its statements with the steps of the workers.  [gids] is the
    [list(active_cameras.keys())] of line 468, taken once: the keys of the
    session table in the order of their insertion. *)
Definition disconnect_all_interleaved (gids : list string) (evs : list event) (st : State)
  : handler * State :=
  interleave evs (next_gate gids, st).












(** The interleaving in which only the joined worker runs, and only
    during its join: the statements of the handler for the gate [gid], which
    it reaches in the state [st], are six, or nine when a capture is
    registered for the gate at the end of the join. *)
Definition gate_events (gid : string) (sched : list Env) (st : State) : list event :=
  [HandlerStep]
  ++ match camera_threads st !! gid with
     | Some thread => WorkerRuns thread <$> sched
     | None => []
     end
  ++ replicate (if bool_decide (is_Some (camera_captures (signal_and_join gid sched st) !! gid))
                then 9 else 6) HandlerStep.

Fixpoint serial_events (scheds : string → list Env) (gids : list string) (st : State)
  : list event :=
  match gids with
  | [] => []
  | gid :: rest =>
      gate_events gid (scheds gid) st
      ++ serial_events scheds rest (disconnect_gate gid (scheds gid) st)
  end.




(** Gate A is connected and its worker (thread 0) runs; a second connect
    for A finds the worker blocked and gives up the join; thread 0 then
    reads two frames while thread 1 has not run yet. *)
Definition reconnect_while_blocked : list op :=
  [Connect (webcam_request "A" "0") 1000 []; WorkerStep 0 (sample_env 1000 true);
   Connect (webcam_request "A" "1") 5000 [];
   WorkerStep 0 (sample_env 5100 true); WorkerStep 0 (sample_env 5200 true)].

(** After the second connect of [reconnect_while_blocked] the new worker
    (thread 1) opens its capture, then the reads of the old worker fail
    eleven times in a row. *)
Definition stale_worker_exits : list op :=
  [Connect (webcam_request "A" "0") 1000 []; WorkerStep 0 (sample_env 1000 true);
   Connect (webcam_request "A" "1") 5000 []; WorkerStep 1 (sample_env 5000 true)]
  ++ replicate 11 (WorkerStep 0 (sample_env 6000 false)).

(** A mobile session whose stream does not open: the worker publishes
    the error and ends, the status query drains the error at time 1000,
    after which the queue stays empty and the session stays marked active. *)
Definition stalled_mobile : list op :=
  [Connect (mobile_request "A" "http://10.0.0.7:8080/video") 0 [];
   WorkerStep 0 (closed_env 500);
   GetStatus 1000].

(** ** Notions used for the further properties *)

(** The bounds the loop keeps on a worker's locals, and the count of the
    detector calls it has made.  The retry counter passes [max_retries]
    only in the trip that ends the worker (line 255 before line 257). *)
Definition worker_ok (w : Worker) : Prop :=
  0 <= w_retry_count w <= max_retries + 1
  ∧ (w_pc w ≠ Stopped → w_retry_count w <= max_retries)
  ∧ 0 <= w_frame_count w
  ∧ Z.of_nat (w_detections w) = w_frame_count w / PROCESS_EVERY_N_FRAMES.



(** How one step may change a worker's record. *)
Definition wnext (w w' : Worker) : Prop :=
  w_gate_id w' = w_gate_id w
  ∧ w_camera_source w' = w_camera_source w
  ∧ (w_pc w ≠ Stopped → worker_ok w → worker_ok w')
  ∧ (w_pc w = Running → w_pc w' ≠ Starting ∧ w_cap w' = w_cap w).

(** How the thread pool changes: live workers take steps and new
    threads are appended. *)
Inductive pool_evolves : list Worker → list Worker → Prop :=
  | pool_same ws : pool_evolves ws ws
  | pool_step ws tid w w' ws' :
      ws !! tid = Some w → w_pc w ≠ Stopped → wnext w w' →
      pool_evolves (<[tid := w']> ws) ws' → pool_evolves ws ws'
  | pool_spawn ws gate_id camera_source ws' :
      pool_evolves (ws ++ [new_worker gate_id camera_source]) ws' → pool_evolves ws ws'.

(** An item of the queue of [gate_id] is either an error report or the
    classified count of a configured gate. *)
Definition item_ok (gate_id : string) (item : GateStatus) : Prop :=
  (∃ msg, item = error_item msg ∧ msg ≠ "")
  ∨ (∃ d, config_get GATE_CONFIG gate_id = Some d
          ∧ r_status item = classify (r_count item) (capacity d)
          ∧ r_error item = None ∧ is_Some (r_timestamp item) ∧ is_Some (r_frame item)).

Definition queues_ok (st : State) : Prop :=
  ∀ g q, camera_queues st !! g = Some q → Forall (item_ok g) q.

(** The items a worker adds to a queue, read from the worker's last
    processing time on: results are at least one frame interval apart, and
    an error report is the last item. *)
Fixpoint paced (last : Z) (items : list GateStatus) : Prop :=
  match items with
  | [] => True
  | item :: rest =>
      match r_timestamp item with
      | Some t => last + frame_interval <= t ∧ paced t rest
      | None => r_status item = disconnected ∧ rest = []
      end
  end.

(** The test of lines 343-347 that makes the health check restart a gate. *)
Definition needs_restart (now : Z) (gate_id : string) (st : State) : bool :=
  bool_decide (active_cameras st !! gate_id = Some true)
  && match camera_queues st !! gate_id with Some [] => true | _ => false end
  && match camera_last_update st !! gate_id with
     | Some last => now - last >? stale_after
     | None => false
     end.

(** ** cleanup_cameras (lines 570-578), registered with [atexit] *)




(** ** detect_people_yolov8 (lines 106-129) *)




(** ** test_camera_url (lines 85-104) *)

(** What the probe of a URL meets: [requests.get] answers with a status
    code or raises ([None]); [cv2.VideoCapture(url)] raises, or else
    [isOpened()] answers. *)
Record Probe := {
  p_http_status : option Z;
  p_rtsp_opened : bool;
  p_raises : bool
}.

Definition test_camera_url (url : string) (p : Probe) : bool :=
  if String.prefix "http" url then
    match p_http_status p with
    | Some status_code => status_code =? 200
    | None => true
    end
  else if String.prefix "rtsp" url then
    if p_raises p then true else p_rtsp_opened p
  else false.

(** The acquisition ends with an open capture: no collaborator raises,
    the source resolves (the gate's mobile registration, a webcam index or
    a valid URL) and the capture reports that it is opened. *)
Definition opens (w : Worker) (e : Env) (st : State) : bool :=
  match e_raise e with
  | Some _ => false
  | None =>
      e_opened e
      && ((bool_decide (is_Some (mobile_devices st !! w_gate_id w))
           && String.eqb (w_camera_source w) "mobile")
          || bool_decide (is_Some (e_int e)) || e_valid_url e)
  end.

(** Gate "Z", which GATE_CONFIG does not list, connected to webcam 0; its
    worker has read one frame. *)
Definition unconfigured_session : State :=
  run [Connect (webcam_request "Z" "0") 1000 []; WorkerStep 0 (sample_env 1000 true);
       WorkerStep 0 (sample_env 2000 true)] init.

(** The camera source connect_camera hands to the worker (lines 403-411). *)
Definition worker_source (data : ConnectRequest) : string :=
  match (if String.eqb (q_camera_type data) "mobile" then q_stream_url data else None) with
  | Some _ => "mobile"
  | None => q_camera_source data
  end.

(** The number of gates of a list that the health check would restart. *)
Fixpoint count_stale (now : Z) (gids : list string) (st : State) : nat :=
  match gids with
  | [] => 0
  | g :: rest => (if needs_restart now g st then 1 else 0) + count_stale now rest st
  end.


(** * Properties *)

(** ** Occupancy classification *)







(** Every gate of GATE_CONFIG has a capacity within the checked range, so
    the status published for a configured gate follows the thresholds. *)
Lemma configured_capacity_in_range gate_id d :
  config_get GATE_CONFIG gate_id = Some d → 0 < capacity d <= exact_capacity_bound.
Proof.
  unfold GATE_CONFIG, exact_capacity_bound. cbn [config_get].
  repeat (destruct (String.eqb _ gate_id); [intros [= <-]; cbn; lia|]).
  discriminate.
Qed.

(** ** The status query *)

Lemma status_loop_keys gates now st :
  map fst (snd (status_loop gates now st))
  = filter (λ g, g ≠ "Temple") gates.
Proof.
  revert st. induction gates as [|g gates IH]; intros st; [reflexivity|].
  cbn [status_loop]. rewrite filter_cons.
  destruct (String.eqb_spec g "Temple") as [->|Hne].
  - rewrite decide_False by (intros H; apply H; reflexivity). apply IH.
  - rewrite decide_True by exact Hne. cbn. f_equal. apply IH.
Qed.

Lemma entry_of_None gate_id reply :
  gate_id ∉ map fst reply → entry_of gate_id reply = None.
Proof.
  induction reply as [|[k s] reply IH]; intros H; [reflexivity|].
  cbn in *. destruct (String.eqb_spec k gate_id) as [->|Hne].
  - exfalso. apply H. left.
  - apply IH. intros Hin. apply H. right. exact Hin.
Qed.

(** C9: the reply of the status query has exactly one entry per
    configured gate other than 'Temple', in the order of GATE_CONFIG, and
    none for 'Temple', whatever the state of the sessions. *)
Theorem status_skips_temple (now : Z) (st : State) :
  map fst (snd (get_camera_status now st)) = ["A"; "B"; "C"; "D"; "E"; "F"]
  ∧ config_get GATE_CONFIG "Temple" ≠ None
  ∧ entry_of "Temple" (snd (get_camera_status now st)) = None.
Proof.
  assert (Hk : map fst (snd (get_camera_status now st)) = ["A"; "B"; "C"; "D"; "E"; "F"]).
  { unfold get_camera_status. rewrite status_loop_keys. reflexivity. }
  split; [exact Hk|]. split; [discriminate|].
  apply entry_of_None. rewrite Hk. intros H.
  repeat (apply elem_of_cons in H as [H|H]; [discriminate H|]).
  inversion H.
Qed.

(** The entry of a gate only depends on that gate's keys. *)
Lemma status_gate_ext now g st1 st2 :
  camera_queues st1 !! g = camera_queues st2 !! g →
  active_cameras st1 !! g = active_cameras st2 !! g →
  mobile_devices st1 !! g = mobile_devices st2 !! g →
  snd (status_gate now g st1) = snd (status_gate now g st2).
Proof.
  intros Hq Ha Hm. unfold status_gate. rewrite Hq, Ha, Hm.
  destruct (camera_queues st2 !! g) as [[|d q]|]; reflexivity.
Qed.

Lemma status_gate_other now now' g g' st :
  g ≠ g' → snd (status_gate now g (fst (status_gate now' g' st))) = snd (status_gate now g st).
Proof.
  intros Hne. apply status_gate_ext; unfold status_gate;
    destruct (camera_queues st !! g') as [[|d q]|]; cbn; try reflexivity.
  by rewrite lookup_insert_ne.
Qed.

Lemma status_loop_entry gates now st g :
  g ∈ gates → g ≠ "Temple" →
  entry_of g (snd (status_loop gates now st)) = Some (snd (status_gate now g st)).
Proof.
  revert st. induction gates as [|g' gates IH]; intros st Hin Hne.
  - inversion Hin.
  - cbn [status_loop].
    destruct (String.eqb_spec g' "Temple") as [->|HT].
    + apply elem_of_cons in Hin as [->|Hin]; [congruence|]. by apply IH.
    + cbn. destruct (String.eqb_spec g' g) as [->|Hgg]; [reflexivity|].
      apply elem_of_cons in Hin as [->|Hin]; [congruence|].
      rewrite IH by done. f_equal. apply status_gate_other. congruence.
Qed.

(** The status query writes neither the session table nor the mobile
    registry, and leaves an absent or empty queue as it is. *)
Lemma status_gate_frame now g st :
  active_cameras (fst (status_gate now g st)) = active_cameras st
  ∧ mobile_devices (fst (status_gate now g st)) = mobile_devices st
  ∧ ∀ g', (camera_queues st !! g' = None ∨ camera_queues st !! g' = Some []) →
          camera_queues (fst (status_gate now g st)) !! g' = camera_queues st !! g'.
Proof.
  unfold status_gate.
  destruct (camera_queues st !! g) as [[|d q]|] eqn:Hq; cbn; repeat split; try done.
  intros g' Hg'. destruct (decide (g = g')) as [->|Hne].
  - rewrite Hq in Hg'. destruct Hg' as [?|?]; discriminate.
  - by rewrite lookup_insert_ne.
Qed.

Lemma status_loop_frame gates now st :
  active_cameras (fst (status_loop gates now st)) = active_cameras st
  ∧ mobile_devices (fst (status_loop gates now st)) = mobile_devices st
  ∧ ∀ g', (camera_queues st !! g' = None ∨ camera_queues st !! g' = Some []) →
          camera_queues (fst (status_loop gates now st)) !! g' = camera_queues st !! g'.
Proof.
  revert st. induction gates as [|g gates IH]; intros st; [done|].
  cbn [status_loop]. destruct (String.eqb g "Temple"); [apply IH|].
  cbn [fst].
  destruct (status_gate_frame now g st) as (Ha & Hm & Hq).
  destruct (IH (fst (status_gate now g st))) as (Ha' & Hm' & Hq').
  repeat split; [congruence|congruence|].
  intros g' Hg'. rewrite Hq' by (rewrite Hq by done; done). by apply Hq.
Qed.

(** What the query leaves alone: an entry of [camera_last_update] is
    written only together with the removal of an item from the gate's
    queue, and nothing else of the session state is written. *)
Lemma status_gate_untouched now g st :
  camera_threads (fst (status_gate now g st)) = camera_threads st
  ∧ camera_captures (fst (status_gate now g st)) = camera_captures st
  ∧ workers (fst (status_gate now g st)) = workers st
  ∧ open_caps (fst (status_gate now g st)) = open_caps st
  ∧ ∀ g', (camera_queues st !! g' = None ∨ camera_queues st !! g' = Some []) →
          camera_last_update (fst (status_gate now g st)) !! g' = camera_last_update st !! g'.
Proof.
  unfold status_gate.
  destruct (camera_queues st !! g) as [[|d q]|] eqn:Hq; cbn; repeat split; try done.
  intros g' Hg'. destruct (decide (g = g')) as [->|Hne].
  - rewrite Hq in Hg'. destruct Hg' as [?|?]; discriminate.
  - by rewrite lookup_insert_ne.
Qed.

Lemma status_loop_untouched gates now : ∀ st,
  camera_threads (fst (status_loop gates now st)) = camera_threads st
  ∧ camera_captures (fst (status_loop gates now st)) = camera_captures st
  ∧ workers (fst (status_loop gates now st)) = workers st
  ∧ open_caps (fst (status_loop gates now st)) = open_caps st
  ∧ ∀ g', (camera_queues st !! g' = None ∨ camera_queues st !! g' = Some []) →
          camera_last_update (fst (status_loop gates now st)) !! g'
          = camera_last_update st !! g'.
Proof.
  induction gates as [|g gates IH]; intros st; [done|].
  cbn [status_loop]. destruct (String.eqb g "Temple"); [apply IH|].
  cbn [fst].
  destruct (status_gate_untouched now g st) as (Ht & Hc & Hw & Ho & Hl).
  destruct (status_gate_frame now g st) as (_ & _ & Hq).
  destruct (IH (fst (status_gate now g st))) as (Ht' & Hc' & Hw' & Ho' & Hl').
  split_and!; [congruence|congruence|congruence|congruence|].
  intros g' Hg'. rewrite Hl' by (rewrite Hq by done; done). by apply Hl.
Qed.

Lemma config_get_None cfg g : config_get cfg g = None → g ∉ map fst cfg.
Proof.
  induction cfg as [|[k d] cfg IH]; cbn; intros H Hin; [by inversion Hin|].
  destruct (String.eqb_spec k g) as [->|Hne]; [discriminate|].
  apply elem_of_cons in Hin as [->|Hin]; [done|]. by apply IH.
Qed.

(** C7, as the code has it: a status query changes nothing of a gate
    whose queue is absent (never connected, or unknown) or empty (nothing
    published yet): the gate's flag, queue, thread, capture, last-update
    time and mobile registration are as before, and no worker is touched.
    For such a gate that is configured and is not 'Temple', the entry of the
    reply has count 0, status disconnected, an empty frame and an empty
    error, and a second query returns the same entry.  For 'Temple' and for
    a gate id that GATE_CONFIG does not list, the reply has no entry. *)
Theorem status_of_absence (now now' : Z) (st : State) (g : string) :
  (camera_queues st !! g = None ∨ camera_queues st !! g = Some []) →
  let st' := fst (get_camera_status now st) in
  active_cameras st' !! g = active_cameras st !! g
  ∧ camera_queues st' !! g = camera_queues st !! g
  ∧ camera_threads st' !! g = camera_threads st !! g
  ∧ camera_captures st' !! g = camera_captures st !! g
  ∧ camera_last_update st' !! g = camera_last_update st !! g
  ∧ mobile_devices st' !! g = mobile_devices st !! g
  ∧ workers st' = workers st
  ∧ (g ∈ map fst GATE_CONFIG → g ≠ "Temple" →
     ∃ s, entry_of g (snd (get_camera_status now st)) = Some s
          ∧ s_count s = 0 ∧ s_status s = disconnected ∧ s_frame s = "" ∧ s_error s = ""
          ∧ entry_of g (snd (get_camera_status now' st')) = Some s)
  ∧ (g = "Temple" ∨ config_get GATE_CONFIG g = None →
     entry_of g (snd (get_camera_status now st)) = None).
Proof.
  intros Hq. cbn zeta. unfold get_camera_status.
  destruct (status_loop_frame (map fst GATE_CONFIG) now st) as (Ha & Hm & Hf).
  destruct (status_loop_untouched (map fst GATE_CONFIG) now st) as (Ht & Hc & Hw & _ & Hl).
  specialize (Hf g Hq). specialize (Hl g Hq).
  rewrite Ha, Hm, Ht, Hc, Hw, Hf, Hl.
  split_and!; try reflexivity.
  - intros Hin HT. exists (snd (status_gate now g st)).
    rewrite !status_loop_entry by done.
    assert (Hsame : snd (status_gate now' g (fst (status_loop (map fst GATE_CONFIG) now st)))
                    = snd (status_gate now g st)).
    { unfold status_gate. rewrite Hf, Ha, Hm.
      destruct Hq as [-> | ->]; reflexivity. }
    rewrite Hsame. repeat split; try done;
      unfold status_gate; destruct Hq as [-> | ->]; reflexivity.
  - intros Hg. apply entry_of_None. rewrite status_loop_keys.
    intros Hin. apply list_elem_of_filter in Hin as [HT Hin].
    destruct Hg as [-> | Hg]; [done|]. by apply (config_get_None _ _ Hg).
Qed.

Lemma status_of_absence_witness :
  let st' := fst (get_camera_status 1400 empty_queue_session) in
  active_cameras st' !! "B" = active_cameras empty_queue_session !! "B"
  ∧ camera_queues st' !! "B" = camera_queues empty_queue_session !! "B"
  ∧ camera_threads st' !! "B" = camera_threads empty_queue_session !! "B"
  ∧ camera_captures st' !! "B" = camera_captures empty_queue_session !! "B"
  ∧ camera_last_update st' !! "B" = camera_last_update empty_queue_session !! "B"
  ∧ mobile_devices st' !! "B" = mobile_devices empty_queue_session !! "B"
  ∧ workers st' = workers empty_queue_session
  ∧ ("B" ∈ map fst GATE_CONFIG → "B" ≠ "Temple" →
     ∃ s, entry_of "B" (snd (get_camera_status 1400 empty_queue_session)) = Some s
          ∧ s_count s = 0 ∧ s_status s = disconnected ∧ s_frame s = "" ∧ s_error s = ""
          ∧ entry_of "B" (snd (get_camera_status 1500 st')) = Some s)
  ∧ ("B" = "Temple" ∨ config_get GATE_CONFIG "B" = None →
     entry_of "B" (snd (get_camera_status 1400 empty_queue_session)) = None).
Proof.
  apply (status_of_absence 1400 1500 empty_queue_session "B").
  right. vm_compute. reflexivity.
Defined.

(** C7 as stated fails for 'Temple' (configured, never connected) and for
    a gate id outside GATE_CONFIG: the reply has no entry for them. *)
Lemma status_of_absence_counterexample :
  camera_queues init !! "Temple" = None
  ∧ ¬ (∃ s, entry_of "Temple" (snd (get_camera_status 5 init)) = Some s ∧ s_count s = 0)
  ∧ ¬ (∃ s, entry_of "Z" (snd (get_camera_status 5 init)) = Some s ∧ s_count s = 0).
Proof.
  split; [reflexivity|].
  split; intros (s & H & _); vm_compute in H; discriminate H.
Qed.

(** ** The worker loop: retries and decimation *)

Lemma with_workers_id st : with_workers (workers st) st = st.
Proof. by destruct st. Qed.

Lemma set_worker_id tid w st : workers st !! tid = Some w → set_worker tid w st = st.
Proof.
  intros H. unfold set_worker. rewrite list_insert_id by done. apply with_workers_id.
Qed.

Lemma set_worker_lookup tid w w0 st :
  workers st !! tid = Some w0 → workers (set_worker tid w st) !! tid = Some w.
Proof.
  intros H. cbn. apply list_lookup_insert_eq. by eapply lookup_lt_Some.
Qed.

Lemma set_worker_twice tid w1 w2 st :
  set_worker tid w2 (set_worker tid w1 st) = set_worker tid w2 st.
Proof. unfold set_worker, with_workers. cbn. by rewrite list_insert_insert_eq. Qed.

Lemma with_retries_id w : w_pc w = Running → with_retries (w_retry_count w) w = w.
Proof. destruct w; cbn; intros ->; reflexivity. Qed.

Lemma worker_step_running tid w e st :
  workers st !! tid = Some w → w_pc w = Running →
  worker_step tid e st = iterate tid w e st.
Proof. intros H Hpc. unfold worker_step. by rewrite H, Hpc. Qed.

Lemma reads_not_skipped w e :
  reads w e → (e_now e - w_last_processed_time w <? frame_interval) = false.
Proof. intros [H _]. apply Z.ltb_ge. exact H. Qed.

Lemma iterate_failed_read tid w e st :
  active_cameras st !! w_gate_id w = Some true → failed_read w e →
  iterate tid w e st =
    if w_retry_count w + 1 >? max_retries
    then worker_fail tid (with_retries (w_retry_count w + 1) w)
           "Camera stream disconnected. Please reconnect." st
    else set_worker tid (with_retries (w_retry_count w + 1) w) st.
Proof.
  intros Ha [Hr Hret]. unfold iterate.
  rewrite bool_decide_eq_true_2 by done. cbn [negb].
  rewrite (reads_not_skipped _ _ Hr). destruct Hr as [_ ->]. rewrite Hret.
  reflexivity.
Qed.

Lemma failed_reads_run tid envs : ∀ st w,
  workers st !! tid = Some w → w_pc w = Running →
  active_cameras st !! w_gate_id w = Some true →
  Forall (failed_read w) envs →
  w_retry_count w + Z.of_nat (length envs) <= max_retries →
  run_worker tid envs st
  = set_worker tid (with_retries (w_retry_count w + Z.of_nat (length envs)) w) st.
Proof.
  induction envs as [|e envs IH]; intros st w Hw Hpc Ha Hall Hle.
  - cbn. rewrite Z.add_0_r, with_retries_id by done. by rewrite set_worker_id.
  - apply Forall_cons in Hall as [He Hall]. cbn [length] in Hle.
    cbn [run_worker foldl]. fold (run_worker tid envs (worker_step tid e st)).
    rewrite (worker_step_running _ _ _ _ Hw Hpc), (iterate_failed_read _ _ _ _ Ha He).
    destruct (Z.gtb_spec (w_retry_count w + 1) max_retries) as [Hgt|_]; [lia|].
    set (w1 := with_retries (w_retry_count w + 1) w).
    rewrite (IH (set_worker tid w1 st) w1).
    + rewrite set_worker_twice. f_equal. unfold w1, with_retries, w_update. cbn.
      f_equal. lia.
    + by eapply set_worker_lookup.
    + reflexivity.
    + exact Ha.
    + exact Hall.
    + cbn. lia.
Qed.

Lemma worker_fail_effect tid w0 w msg st :
  workers st !! tid = Some w0 →
  workers (worker_fail tid w msg st) !! tid = Some (w_stop w)
  ∧ ∀ q, camera_queues st !! w_gate_id w = Some q →
         camera_queues (worker_fail tid w msg st) !! w_gate_id w
         = Some (q ++ [error_item msg]).
Proof.
  intros Hw. unfold worker_fail, worker_exit. split.
  - apply list_lookup_insert_eq.
    unfold publish, finally_release.
    repeat case_match; cbn; by eapply lookup_lt_Some.
  - intros q Hq. unfold publish. rewrite Hq. unfold finally_release.
    case_match; cbn; by rewrite lookup_insert_eq.
Qed.

Lemma iterate_good_read tid w e st :
  active_cameras st !! w_gate_id w = Some true → good_read w e →
  is_Some (config_get GATE_CONFIG (w_gate_id w)) →
  workers st !! tid = Some w →
  ∃ w', workers (iterate tid w e st) !! tid = Some w'
        ∧ w_pc w' = Running ∧ w_gate_id w' = w_gate_id w
        ∧ w_retry_count w' = 0
        ∧ w_frame_count w' = w_frame_count w + 1
        ∧ Z.of_nat (w_detections w') - Z.of_nat (w_detections w)
          = (w_frame_count w + 1) / PROCESS_EVERY_N_FRAMES
            - w_frame_count w / PROCESS_EVERY_N_FRAMES
        ∧ active_cameras (iterate tid w e st) = active_cameras st.
Proof.
  intros Ha [Hr Hret] [d Hd] Hw. unfold iterate.
  rewrite bool_decide_eq_true_2 by done. cbn [negb].
  rewrite (reads_not_skipped _ _ Hr). destruct Hr as [_ ->]. rewrite Hret. cbn [negb].
  rewrite Hd. unfold PROCESS_EVERY_N_FRAMES.
  assert (Hlen : (tid < length (workers st))%nat) by by eapply lookup_lt_Some.
  destruct (Z.eqb_spec ((w_frame_count w + 1) mod 2) 0) as [Hm|Hm].
  - destruct (camera_queues st !! w_gate_id w);
      (eexists; split; [cbn; by apply list_lookup_insert_eq|]);
      cbn; repeat split; try done;
      rewrite Nat2Z.inj_succ; pose proof (Z.div_mod (w_frame_count w + 1) 2);
      pose proof (Z.div_mod (w_frame_count w) 2);
      pose proof (Z.mod_pos_bound (w_frame_count w) 2); lia.
  - eexists; split; [cbn; by apply list_lookup_insert_eq|].
    cbn; repeat split; try done.
    pose proof (Z.div_mod (w_frame_count w + 1) 2);
      pose proof (Z.div_mod (w_frame_count w) 2);
      pose proof (Z.mod_pos_bound (w_frame_count w) 2);
      pose proof (Z.mod_pos_bound (w_frame_count w + 1) 2); lia.
Qed.

(** C3: a run of at most ten consecutive failed reads leaves the worker
    running, with its retry counter at the length of the run; the eleventh
    consecutive failure stops the worker after it has put a disconnected
    item with a non-empty error on the gate's queue; and a successful read
    after the failures brings the counter back to zero. *)
Theorem retry_policy (tid : nat) (envs : list Env) (st : State) (w : Worker) :
  workers st !! tid = Some w → w_pc w = Running → w_retry_count w = 0 →
  active_cameras st !! w_gate_id w = Some true →
  is_Some (config_get GATE_CONFIG (w_gate_id w)) →
  Forall (failed_read w) envs →
  (Z.of_nat (length envs) <= max_retries →
     ∃ w', workers (run_worker tid envs st) !! tid = Some w'
           ∧ w_pc w' = Running ∧ w_retry_count w' = Z.of_nat (length envs)
           ∧ ∀ e, good_read w e →
               ∃ w'', workers (worker_step tid e (run_worker tid envs st)) !! tid = Some w''
                      ∧ w_pc w'' = Running ∧ w_retry_count w'' = 0)
  ∧ (Z.of_nat (length envs) = max_retries + 1 →
     ∃ w', workers (run_worker tid envs st) !! tid = Some w' ∧ w_pc w' = Stopped
           ∧ ∀ q, camera_queues st !! w_gate_id w = Some q →
               ∃ item msg, camera_queues (run_worker tid envs st) !! w_gate_id w
                           = Some (q ++ [item])
                       ∧ r_status item = disconnected ∧ r_count item = 0
                       ∧ r_error item = Some msg ∧ msg ≠ "").
Proof.
  intros Hw Hpc Hrc Ha Hcfg Hall. split.
  - intros Hle.
    rewrite (failed_reads_run tid envs st w) by (try done; lia).
    set (w1 := with_retries _ w).
    assert (Hw1 : workers (set_worker tid w1 st) !! tid = Some w1)
      by by eapply set_worker_lookup.
    exists w1. repeat split; [done| cbn; lia |].
    intros e He.
    rewrite (worker_step_running _ _ _ _ Hw1 eq_refl).
    destruct (iterate_good_read tid w1 e (set_worker tid w1 st)) as (w2 & ? & ? & ? & ? & _);
      try done.
    by exists w2.
  - intros Hlen.
    destruct (envs) as [|e0 envs0] using rev_ind; [cbn in Hlen; unfold max_retries in Hlen; lia|].
    clear IHenvs0. rewrite length_app in Hlen. cbn in Hlen.
    apply Forall_app in Hall as [Hall He]. apply Forall_cons in He as [He _].
    unfold run_worker. rewrite foldl_app. cbn [foldl].
    fold (run_worker tid envs0 st).
    rewrite (failed_reads_run tid envs0 st w) by (try done; lia).
    set (w1 := with_retries _ w).
    assert (Hw1 : workers (set_worker tid w1 st) !! tid = Some w1)
      by by eapply set_worker_lookup.
    rewrite (worker_step_running _ _ _ _ Hw1 eq_refl).
    rewrite (iterate_failed_read tid w1 e0 (set_worker tid w1 st)) by done.
    replace (w_retry_count w1 + 1 >? max_retries) with true
      by (symmetry; apply Z.gtb_lt; cbn; lia).
    destruct (worker_fail_effect tid w1 (with_retries (w_retry_count w1 + 1) w1)
                "Camera stream disconnected. Please reconnect."
                (set_worker tid w1 st) Hw1) as [Hs Hq].
    eexists. split; [exact Hs|]. split; [reflexivity|].
    intros q Hq0. eexists _, _. split; [apply (Hq q Hq0)|]. by cbn.
Qed.

Lemma retry_policy_witness :
  (Z.of_nat (length [sample_env 2000 false]) <= max_retries →
     ∃ w', workers (run_worker 0 [sample_env 2000 false] sample_session) !! 0%nat = Some w'
           ∧ w_pc w' = Running
           ∧ w_retry_count w' = Z.of_nat (length [sample_env 2000 false])
           ∧ ∀ e, good_read sample_worker e →
               ∃ w'', workers (worker_step 0 e
                          (run_worker 0 [sample_env 2000 false] sample_session)) !! 0%nat
                      = Some w''
                      ∧ w_pc w'' = Running ∧ w_retry_count w'' = 0)
  ∧ (Z.of_nat (length [sample_env 2000 false]) = max_retries + 1 →
     ∃ w', workers (run_worker 0 [sample_env 2000 false] sample_session) !! 0%nat = Some w'
           ∧ w_pc w' = Stopped
           ∧ ∀ q, camera_queues sample_session !! w_gate_id sample_worker = Some q →
               ∃ item msg,
                 camera_queues (run_worker 0 [sample_env 2000 false] sample_session)
                   !! w_gate_id sample_worker = Some (q ++ [item])
                 ∧ r_status item = disconnected ∧ r_count item = 0
                 ∧ r_error item = Some msg ∧ msg ≠ "").
Proof.
  apply (retry_policy 0 [sample_env 2000 false] sample_session sample_worker).
  - vm_compute. reflexivity.
  - reflexivity.
  - reflexivity.
  - vm_compute. reflexivity.
  - vm_compute. eexists. reflexivity.
  - repeat constructor. vm_compute. discriminate.
Defined.

Lemma good_reads_run tid envs : ∀ st w,
  workers st !! tid = Some w → w_pc w = Running →
  active_cameras st !! w_gate_id w = Some true →
  is_Some (config_get GATE_CONFIG (w_gate_id w)) →
  all_good_reads tid envs st →
  ∃ w', workers (run_worker tid envs st) !! tid = Some w'
        ∧ w_pc w' = Running
        ∧ w_frame_count w' = w_frame_count w + Z.of_nat (length envs)
        ∧ Z.of_nat (w_detections w') - Z.of_nat (w_detections w)
          = (w_frame_count w + Z.of_nat (length envs)) / PROCESS_EVERY_N_FRAMES
            - w_frame_count w / PROCESS_EVERY_N_FRAMES.
Proof.
  induction envs as [|e envs IH]; intros st w Hw Hpc Ha Hcfg Hall.
  - exists w. cbn. rewrite Z.add_0_r. repeat split; try done. lia.
  - destruct Hall as [(w0 & Hw0 & He) Hall].
    assert (w0 = w) as -> by congruence.
    cbn [run_worker foldl]. fold (run_worker tid envs (worker_step tid e st)).
    rewrite (worker_step_running _ _ _ _ Hw Hpc) in *.
    destruct (iterate_good_read tid w e st Ha He Hcfg Hw)
      as (w1 & Hw1 & Hpc1 & Hg1 & _ & Hfc1 & Hdet1 & Ha1).
    destruct (IH (iterate tid w e st) w1) as (w2 & Hw2 & Hpc2 & Hfc2 & Hdet2); try done.
    { rewrite Ha1, Hg1. exact Ha. }
    { by rewrite Hg1. }
    exists w2. repeat split; try done.
    + rewrite Hfc2, Hfc1. cbn [length]. lia.
    + rewrite Hfc1 in Hdet2. cbn [length].
      replace (w_frame_count w + Z.of_nat (S (length envs)))
        with (w_frame_count w + 1 + Z.of_nat (length envs)) by lia.
      lia.
Qed.

(** C5, as the code has it: when K successive trips through the loop each
    read a frame, the frame counter advances by K and the detector is
    called on the frames whose running number is a multiple of N = 2, that
    is floor((f + K) / N) - floor(f / N) times for a worker that had read f
    frames before; exactly floor(K / N) times when f is a multiple of N, as
    for the first K frames of a worker. *)
Theorem decimation (tid : nat) (envs : list Env) (st : State) (w : Worker) :
  workers st !! tid = Some w → w_pc w = Running →
  active_cameras st !! w_gate_id w = Some true →
  is_Some (config_get GATE_CONFIG (w_gate_id w)) →
  all_good_reads tid envs st →
  let K := Z.of_nat (length envs) in
  ∃ w', workers (run_worker tid envs st) !! tid = Some w'
        ∧ w_frame_count w' = w_frame_count w + K
        ∧ Z.of_nat (w_detections w') - Z.of_nat (w_detections w)
          = (w_frame_count w + K) / PROCESS_EVERY_N_FRAMES
            - w_frame_count w / PROCESS_EVERY_N_FRAMES
        ∧ (w_frame_count w mod PROCESS_EVERY_N_FRAMES = 0 →
           Z.of_nat (w_detections w') - Z.of_nat (w_detections w)
           = K / PROCESS_EVERY_N_FRAMES).
Proof.
  intros Hw Hpc Ha Hcfg Hall K.
  destruct (good_reads_run tid envs st w Hw Hpc Ha Hcfg Hall) as (w' & Hw' & _ & Hfc & Hdet).
  exists w'. repeat split; try done.
  intros Hmod. rewrite Hdet. fold K. unfold PROCESS_EVERY_N_FRAMES in *.
  pose proof (Z.div_mod (w_frame_count w) 2).
  pose proof (Z.div_mod (w_frame_count w + K) 2).
  pose proof (Z.div_mod K 2).
  pose proof (Z.mod_pos_bound (w_frame_count w + K) 2).
  pose proof (Z.mod_pos_bound K 2). lia.
Qed.

Lemma decimation_witness :
  let envs := [sample_env 2000 true; sample_env 2100 true; sample_env 2200 true] in
  let K := Z.of_nat (length envs) in
  ∃ w', workers (run_worker 0 envs sample_session) !! 0%nat = Some w'
        ∧ w_frame_count w' = w_frame_count sample_worker + K
        ∧ Z.of_nat (w_detections w') - Z.of_nat (w_detections sample_worker)
          = (w_frame_count sample_worker + K) / PROCESS_EVERY_N_FRAMES
            - w_frame_count sample_worker / PROCESS_EVERY_N_FRAMES
        ∧ (w_frame_count sample_worker mod PROCESS_EVERY_N_FRAMES = 0 →
           Z.of_nat (w_detections w') - Z.of_nat (w_detections sample_worker)
           = K / PROCESS_EVERY_N_FRAMES).
Proof.
  apply (decimation 0 [sample_env 2000 true; sample_env 2100 true; sample_env 2200 true]
           sample_session sample_worker).
  - vm_compute. reflexivity.
  - reflexivity.
  - vm_compute. reflexivity.
  - vm_compute. eexists. reflexivity.
  - cbn [all_good_reads]. repeat split;
      try (eexists; split; [vm_compute; reflexivity|]; vm_compute; repeat split; discriminate).
Defined.

(** C5 as stated fails for a run of successful reads that begins at an
    odd frame count: after one frame and one failed read, the run made of
    the single next frame (K = 1) triggers one detector call, not
    floor(1 / 2) = 0. *)
Lemma decimation_counterexample :
  let before := run_worker 0 [sample_env 2000 true; sample_env 2100 false] sample_session in
  let run_of_one := [sample_env 2200 true] in
  all_good_reads 0 run_of_one before
  ∧ (detections_of 0 (run_worker 0 run_of_one before) - detections_of 0 before)%nat = 1%nat
  ∧ Z.of_nat (length run_of_one) / PROCESS_EVERY_N_FRAMES = 0.
Proof.
  cbn zeta. split; [|split; vm_compute; reflexivity].
  cbn [all_good_reads]. split; [|exact I].
  eexists; split; [vm_compute; reflexivity|]. vm_compute. repeat split; discriminate.
Qed.

(** ** What a worker step leaves alone *)

Lemma worker_frame_refl g st : worker_frame g st st.
Proof. by repeat split. Qed.

Lemma worker_frame_trans g st1 st2 st3 :
  worker_frame g st1 st2 → worker_frame g st2 st3 → worker_frame g st1 st3.
Proof.
  intros (A1 & T1 & L1 & M1 & W1 & D1 & F1) (A2 & T2 & L2 & M2 & W2 & D2 & F2).
  repeat split; try congruence.
  - destruct (F1 g' H), (F2 g' H). congruence.
  - destruct (F1 g' H), (F2 g' H). congruence.
Qed.

Lemma publish_frame g item st : worker_frame g st (publish g item st).
Proof.
  unfold publish. destruct (camera_queues st !! g) as [q|] eqn:Hq;
    [|apply worker_frame_refl].
  repeat split; cbn; try done.
  - apply dom_insert_lookup_L. by rewrite Hq.
  - by rewrite lookup_insert_ne.
Qed.

Lemma finally_release_frame g st : worker_frame g st (finally_release g st).
Proof.
  unfold finally_release. destruct (camera_captures st !! g) as [h|];
    [|apply worker_frame_refl].
  repeat split; cbn; try done. by rewrite lookup_delete_ne.
Qed.

Lemma set_worker_frame g tid w w0 st :
  workers st !! tid = Some w0 → w_gate_id w = w_gate_id w0 →
  worker_frame g st (set_worker tid w st).
Proof.
  intros Hw Hg. repeat split; cbn; try done.
  rewrite list_fmap_insert. apply list_insert_id.
  rewrite list_lookup_fmap, Hw. cbn. by rewrite Hg.
Qed.

Lemma publish_workers g item st : workers (publish g item st) = workers st.
Proof. unfold publish. by destruct (camera_queues st !! g). Qed.

Lemma finally_release_workers g st : workers (finally_release g st) = workers st.
Proof. unfold finally_release. by destruct (camera_captures st !! g). Qed.

Lemma worker_exit_frame tid w w0 st :
  workers st !! tid = Some w0 → w_gate_id w = w_gate_id w0 →
  worker_frame (w_gate_id w0) st (worker_exit tid w st).
Proof.
  intros Hw Hg. unfold worker_exit. rewrite Hg.
  eapply worker_frame_trans; [apply finally_release_frame|].
  eapply set_worker_frame; [by rewrite finally_release_workers|]. exact Hg.
Qed.

Lemma worker_fail_frame tid w w0 msg st :
  workers st !! tid = Some w0 → w_gate_id w = w_gate_id w0 →
  worker_frame (w_gate_id w0) st (worker_fail tid w msg st).
Proof.
  intros Hw Hg. unfold worker_fail. rewrite Hg.
  eapply worker_frame_trans; [apply publish_frame|].
  apply worker_exit_frame; [by rewrite publish_workers|exact Hg].
Qed.

Lemma register_capture_frame tid w mob st :
  workers st !! tid = Some w →
  worker_frame (w_gate_id w) st (register_capture tid w mob st).
Proof.
  intros Hw. unfold register_capture.
  eapply worker_frame_trans; [|eapply set_worker_frame; [exact Hw|reflexivity]].
  repeat split; cbn; try done. by rewrite lookup_insert_ne.
Qed.

Lemma acquire_frame tid w e st :
  workers st !! tid = Some w → worker_frame (w_gate_id w) st (acquire tid w e st).
Proof.
  intros Hw. unfold acquire.
  repeat case_match;
    first [ by apply register_capture_frame | by apply worker_fail_frame ].
Qed.

Lemma iterate_frame tid w e st :
  workers st !! tid = Some w → worker_frame (w_gate_id w) st (iterate tid w e st).
Proof.
  intros Hw. unfold iterate.
  repeat case_match;
    first [ by apply worker_frame_refl
          | by apply worker_exit_frame
          | by apply worker_fail_frame
          | by eapply set_worker_frame
          | idtac ].
  eapply worker_frame_trans;
    [|eapply set_worker_frame; [exact Hw|reflexivity]].
  repeat split; cbn; try done.
  - apply dom_insert_lookup_L.
    match goal with H : camera_queues st !! _ = Some _ |- _ => by rewrite H end.
  - by rewrite lookup_insert_ne.
Qed.

Lemma worker_step_frame tid e st g :
  w_gate_id <$> workers st !! tid = Some g → worker_frame g st (worker_step tid e st).
Proof.
  unfold worker_step. destruct (workers st !! tid) as [w|] eqn:Hw; [|discriminate].
  cbn. intros [= <-].
  destruct (w_pc w); [by apply acquire_frame|by apply iterate_frame|apply worker_frame_refl].
Qed.

Lemma worker_frame_gate g st st' tid :
  worker_frame g st st' →
  w_gate_id <$> workers st' !! tid = w_gate_id <$> workers st !! tid.
Proof.
  intros (_ & _ & _ & _ & W & _). by rewrite <- !list_lookup_fmap, W.
Qed.

Lemma join_frame tid g sched : ∀ st,
  w_gate_id <$> workers st !! tid = Some g → worker_frame g st (join tid sched st).
Proof.
  induction sched as [|e sched IH]; intros st Hg; [apply worker_frame_refl|].
  cbn [join]. destruct (is_alive st tid); [|apply worker_frame_refl].
  pose proof (worker_step_frame tid e st g Hg) as Hf.
  eapply worker_frame_trans; [exact Hf|]. apply IH.
  by rewrite (worker_frame_gate _ _ _ tid Hf).
Qed.

Lemma worker_frame_threads_wf g st st' :
  worker_frame g st st' → threads_wf st → threads_wf st'.
Proof.
  intros Hf Hwf g' t Ht. rewrite (worker_frame_gate _ _ _ t Hf).
  apply Hwf. destruct Hf as (_ & T & _). by rewrite <- T.
Qed.

Lemma worker_frame_wf g st st' : worker_frame g st st' → wf st → wf st'.
Proof.
  intros Hf (Ht & Hq & Hth & Hl).
  split; [by eapply worker_frame_threads_wf|].
  destruct Hf as (A & T & L & _ & _ & D & _). by rewrite A, T, L, D.
Qed.

(** ** Disconnect *)

Lemma signal_and_join_frame gid sched st :
  threads_wf st →
  worker_frame gid (with_active (<[gid := false]> (active_cameras st)) st)
    (signal_and_join gid sched st).
Proof.
  intros Hwf. unfold signal_and_join. cbn.
  destruct (camera_threads st !! gid) as [t|] eqn:Ht; [|apply worker_frame_refl].
  apply join_frame. cbn. by apply Hwf.
Qed.

Lemma clean_up_maps gid st :
  active_cameras (clean_up gid st) = delete gid (active_cameras st)
  ∧ camera_queues (clean_up gid st) = delete gid (camera_queues st)
  ∧ camera_threads (clean_up gid st) = delete gid (camera_threads st)
  ∧ camera_captures (clean_up gid st) = delete gid (camera_captures st)
  ∧ camera_last_update (clean_up gid st) = delete gid (camera_last_update st)
  ∧ mobile_devices (clean_up gid st) = mobile_devices st
  ∧ workers (clean_up gid st) = workers st.
Proof.
  unfold clean_up. cbn.
  destruct (camera_captures st !! gid) eqn:Hc; cbn; repeat split; try done.
  by rewrite delete_id.
Qed.

Lemma delete_eq_of_agree `{Countable K} {A} (k : K) (m m' : gmap K A) :
  (∀ k', k' ≠ k → m' !! k' = m !! k') → delete k m' = delete k m.
Proof.
  intros Hag. apply map_eq. intros k'. destruct (decide (k' = k)) as [->|Hne].
  - by rewrite !lookup_delete_eq.
  - rewrite !lookup_delete_ne by done. by apply Hag.
Qed.

(** Tearing a gate down deletes its key from the five dictionaries and
    changes no other key, whatever its worker does during the join. *)
Lemma disconnect_gate_maps gid sched st :
  threads_wf st →
  active_cameras (disconnect_gate gid sched st) = delete gid (active_cameras st)
  ∧ camera_queues (disconnect_gate gid sched st) = delete gid (camera_queues st)
  ∧ camera_threads (disconnect_gate gid sched st) = delete gid (camera_threads st)
  ∧ camera_captures (disconnect_gate gid sched st) = delete gid (camera_captures st)
  ∧ camera_last_update (disconnect_gate gid sched st) = delete gid (camera_last_update st)
  ∧ mobile_devices (disconnect_gate gid sched st) = mobile_devices st
  ∧ w_gate_id <$> workers (disconnect_gate gid sched st) = w_gate_id <$> workers st.
Proof.
  intros Hwf. unfold disconnect_gate.
  destruct (signal_and_join_frame gid sched st Hwf) as (A & T & L & M & W & _ & F).
  destruct (clean_up_maps gid (signal_and_join gid sched st))
    as (A' & Q' & T' & C' & L' & M' & W').
  cbn in A, T, L, M, W, F.
  rewrite A', Q', T', C', L', M', W', A, T, L, M, W.
  repeat split; try done.
  - apply delete_insert_eq.
  - apply delete_eq_of_agree. intros k' Hk. by apply F.
  - apply delete_eq_of_agree. intros k' Hk. by apply F.
Qed.

Lemma disconnect_gate_threads_wf gid sched st :
  threads_wf st → threads_wf (disconnect_gate gid sched st).
Proof.
  intros Hwf. destruct (disconnect_gate_maps gid sched st Hwf) as (_ & _ & T & _ & _ & _ & W).
  intros g t Ht. rewrite T in Ht. apply lookup_delete_Some in Ht as [_ Ht].
  rewrite <- list_lookup_fmap, W, list_lookup_fmap. by apply Hwf.
Qed.


(** ** The disconnection of all gates under interleaving *)














(** [disconnect_camera] is the disconnection of "all" under the
    interleaving in which only the joined workers run. *)
Lemma worker_step_dead tid e st : is_alive st tid = false → worker_step tid e st = st.
Proof.
  unfold is_alive, worker_step. destruct (workers st !! tid) as [w|]; [|done].
  destruct (w_pc w); cbn; [discriminate|discriminate|done].
Qed.

Lemma run_worker_dead tid sched : ∀ st, is_alive st tid = false → run_worker tid sched st = st.
Proof.
  induction sched as [|e sched IH]; intros st Hd; [done|].
  cbn [run_worker foldl]. fold (run_worker tid sched (worker_step tid e st)).
  rewrite (worker_step_dead _ _ _ Hd). by apply IH.
Qed.

Lemma join_run_worker tid sched : ∀ st, join tid sched st = run_worker tid sched st.
Proof.
  induction sched as [|e sched IH]; intros st; [done|].
  cbn [join]. destruct (is_alive st tid) eqn:Ha.
  - rewrite IH. reflexivity.
  - by rewrite run_worker_dead.
Qed.

Lemma interleave_app evs1 evs2 c :
  interleave (evs1 ++ evs2) c = interleave evs2 (interleave evs1 c).
Proof. apply foldl_app. Qed.

Lemma interleave_workers tid sched : ∀ h st,
  interleave (WorkerRuns tid <$> sched) (h, st) = (h, run_worker tid sched st).
Proof.
  induction sched as [|e sched IH]; intros h st; [done|].
  cbn [fmap list_fmap interleave foldl interleave_step fst snd].
  apply IH.
Qed.

Lemma gate_events_run gid sched rest st :
  interleave (gate_events gid sched st) (At gid DSignal rest, st)
  = (next_gate rest, disconnect_gate gid sched st).
Proof.
  unfold gate_events, disconnect_gate. rewrite !interleave_app.
  set (S := signal_and_join gid sched st).
  assert (H1 : interleave
                 match camera_threads st !! gid with
                 | Some thread => WorkerRuns thread <$> sched
                 | None => []
                 end
                 (interleave [HandlerStep] (At gid DSignal rest, st))
               = (At gid DJoin rest, S)).
  { unfold S, signal_and_join. cbn.
    destruct (camera_threads st !! gid) as [t|]; [|done].
    change (foldl interleave_step ?c ?l) with (interleave l c).
    by rewrite interleave_workers, join_run_worker. }
  rewrite H1. unfold clean_up.
  destruct (camera_captures S !! gid) as [h|] eqn:E.
  - rewrite bool_decide_eq_true_2 by done.
    cbn. repeat (progress (rewrite ?E; cbn)). reflexivity.
  - rewrite bool_decide_eq_false_2 by (by intros [? ?]).
    cbn. repeat (progress (rewrite ?E; cbn)). reflexivity.
Qed.

Lemma serial_events_run scheds gids : ∀ st,
  interleave (serial_events scheds gids st) (next_gate gids, st)
  = (Done, foldl (λ s gid, disconnect_gate gid (scheds gid) s) st gids).
Proof.
  induction gids as [|gid gids IH]; intros st; [done|].
  cbn [serial_events foldl next_gate]. rewrite interleave_app, gate_events_run. apply IH.
Qed.

Lemma disconnect_all_serial scheds st :
  let gids := elements (dom (active_cameras st)) in
  disconnect_all_interleaved gids (serial_events scheds gids st) st
  = (Done, disconnect_camera (Some "all") scheds st).
Proof. unfold disconnect_all_interleaved. apply serial_events_run. Qed.

(** C10: the disconnection of one gate changes no entry of another gate
    in the five session dictionaries and leaves the mobile registry, the
    registration of the disconnected gate included, as it was. *)
Theorem disconnect_single_frame (gate_id : string) (scheds : string → list Env)
    (st : State) (g' : string) :
  threads_wf st → gate_id ≠ "all" → g' ≠ gate_id →
  let st' := disconnect_camera (Some gate_id) scheds st in
  active_cameras st' !! g' = active_cameras st !! g'
  ∧ camera_threads st' !! g' = camera_threads st !! g'
  ∧ camera_queues st' !! g' = camera_queues st !! g'
  ∧ camera_captures st' !! g' = camera_captures st !! g'
  ∧ camera_last_update st' !! g' = camera_last_update st !! g'
  ∧ mobile_devices st' = mobile_devices st.
Proof.
  intros Hwf Hall Hne. cbn.
  rewrite (proj2 (String.eqb_neq gate_id "all")) by exact Hall.
  case_bool_decide; [|done].
  destruct (disconnect_gate_maps gate_id (scheds gate_id) st Hwf)
    as (-> & -> & -> & -> & -> & -> & _).
  by rewrite !lookup_delete_ne.
Qed.

(** ** The invariant of the session dictionaries *)

Lemma wf_init : wf init.
Proof.
  split; [intros g t H; cbn in H; rewrite lookup_empty in H; discriminate|].
  cbn. set_solver.
Qed.

Lemma spawn_wf g src st : wf st → g ∈ dom (active_cameras st) → wf (spawn g src st).
Proof.
  intros (Ht & Hq & Hth & Hl) Hg. split; [|cbn; rewrite dom_insert_L; set_solver].
  intros g' t. cbn. rewrite lookup_insert. case_decide as Hd.
  - subst g'. intros [= <-]. by rewrite list_lookup_middle.
  - intros H. specialize (Ht _ _ H).
    destruct (workers st !! t) as [w|] eqn:Hw; [|discriminate].
    by rewrite (lookup_app_l_Some _ _ _ _ Hw).
Qed.

Lemma signal_and_join_wf gid sched st : wf st → wf (signal_and_join gid sched st).
Proof.
  intros Hwf. eapply worker_frame_wf; [apply signal_and_join_frame, Hwf|].
  destruct Hwf as (Ht & Hq & Hth & Hl). split; [exact Ht|].
  cbn. rewrite dom_insert_L. set_solver.
Qed.

Lemma signal_and_join_dom gid sched st :
  wf st → dom (active_cameras (signal_and_join gid sched st)) = {[gid]} ∪ dom (active_cameras st).
Proof.
  intros Hwf. destruct (signal_and_join_frame gid sched st (proj1 Hwf)) as (-> & _).
  cbn. apply dom_insert_L.
Qed.

(** A fresh queue, the active flag and, for a connect, the timestamp. *)
Lemma open_session_wf g st (stamp : option Z) :
  wf st →
  let st2 := with_queues (<[g := []]> (camera_queues st)) st in
  let st3 := with_active (<[g := true]> (active_cameras st2)) st2 in
  let st4 := match stamp with
             | Some now => with_last_update (<[g := now]> (camera_last_update st3)) st3
             | None => st3
             end in
  wf st4 ∧ g ∈ dom (active_cameras st4).
Proof.
  intros (Ht & Hq & Hth & Hl). cbn zeta.
  destruct stamp; (split; [split; [exact Ht|]|]); cbn; rewrite ?dom_insert_L; set_solver.
Qed.

Lemma with_mobile_wf m st : wf st → wf (with_mobile m st).
Proof. intros H. exact H. Qed.

Lemma connect_camera_wf data now sched st :
  wf st → wf (fst (connect_camera data now sched st)).
Proof.
  intros Hwf. unfold connect_camera.
  destruct (q_gate_id data) as [g|]; [|exact Hwf].
  destruct (String.eqb g ""); [exact Hwf|].
  set (st1 := if bool_decide _ then _ else st).
  assert (Hwf1 : wf st1) by (unfold st1; case_bool_decide; [by apply signal_and_join_wf|done]).
  destruct (open_session_wf g st1 (Some now) Hwf1) as [Hwf4 Hg].
  cbn zeta in Hwf4, Hg |- *.
  destruct (if String.eqb (q_camera_type data) "mobile" then q_stream_url data else None);
    cbn [fst]; apply spawn_wf; done.
Qed.

Lemma disconnect_gate_wf gid sched st : wf st → wf (disconnect_gate gid sched st).
Proof.
  intros (Ht & Hq & Hth & Hl).
  split; [by apply disconnect_gate_threads_wf|].
  destruct (disconnect_gate_maps gid sched st Ht) as (-> & -> & -> & _ & -> & _).
  rewrite !dom_delete_L. set_solver.
Qed.

Lemma disconnect_camera_wf gate_id scheds st :
  wf st → wf (disconnect_camera gate_id scheds st).
Proof.
  intros Hwf. unfold disconnect_camera. destruct gate_id as [g|]; [|exact Hwf].
  destruct (String.eqb g "all").
  - generalize (elements (dom (active_cameras st))). intros gids.
    revert st Hwf. induction gids as [|gid gids IH]; intros st Hwf; [exact Hwf|].
    cbn [foldl]. apply IH. by apply disconnect_gate_wf.
  - case_bool_decide; [by apply disconnect_gate_wf|exact Hwf].
Qed.

Lemma health_gate_wf now g sched st : wf st → wf (health_gate now g sched st).
Proof.
  intros Hwf. unfold health_gate.
  destruct (_ && _); [|exact Hwf].
  destruct (camera_last_update st !! g); [|exact Hwf].
  destruct (_ >? _); [|exact Hwf].
  destruct (open_session_wf g (signal_and_join g sched st) None
              (signal_and_join_wf _ _ _ Hwf)) as [Hwf3 Hg].
  by apply spawn_wf.
Qed.

Lemma check_mobile_camera_health_wf now scheds st :
  wf st → wf (check_mobile_camera_health now scheds st).
Proof.
  unfold check_mobile_camera_health.
  generalize (elements (dom (mobile_devices st))). intros gids.
  revert st. induction gids as [|g gids IH]; intros st Hwf; [exact Hwf|].
  cbn [foldl]. apply IH. by apply health_gate_wf.
Qed.

Lemma status_gate_wf now g st : wf st → wf (fst (status_gate now g st)).
Proof.
  intros (Ht & Hq & Hth & Hl). unfold status_gate.
  destruct (camera_queues st !! g) as [[|d q]|] eqn:Hg; cbn [fst]; try done.
  apply elem_of_dom_2 in Hg.
  split; [exact Ht|]. cbn. rewrite !dom_insert_L. set_solver.
Qed.

Lemma get_camera_status_wf now st : wf st → wf (fst (get_camera_status now st)).
Proof.
  unfold get_camera_status. generalize (map fst GATE_CONFIG). intros gates.
  revert st. induction gates as [|g gates IH]; intros st Hwf; [exact Hwf|].
  cbn [status_loop]. destruct (String.eqb g "Temple"); [by apply IH|].
  cbn [fst]. apply IH. by apply status_gate_wf.
Qed.

Lemma register_mobile_wf g u d valid now st :
  wf st → wf (fst (register_mobile g u d valid now st)).
Proof.
  intros Hwf. unfold register_mobile.
  destruct g, u; try exact Hwf.
  destruct (_ || _); [exact Hwf|]. destruct (negb valid); exact Hwf.
Qed.

Lemma worker_step_wf tid e st : wf st → wf (worker_step tid e st).
Proof.
  intros Hwf. destruct (workers st !! tid) as [w|] eqn:Hw.
  - eapply worker_frame_wf; [|exact Hwf].
    apply (worker_step_frame tid e st (w_gate_id w)). by rewrite Hw.
  - unfold worker_step. by rewrite Hw.
Qed.

Lemma exec_wf o st : wf st → wf (exec o st).
Proof.
  destruct o; cbn [exec]; intros Hwf.
  - by apply connect_camera_wf.
  - by apply register_mobile_wf.
  - by apply disconnect_camera_wf.
  - by apply get_camera_status_wf.
  - by apply check_mobile_camera_health_wf.
  - by apply worker_step_wf.
Qed.

(** Every state the server can reach satisfies the invariant. *)
Lemma reachable_wf st : reachable st → wf st.
Proof.
  intros [ops ->]. unfold run.
  assert (H : ∀ s, wf s → wf (foldl (λ s o, exec o s) s ops)).
  { induction ops as [|o ops IH]; intros s Hs; [exact Hs|].
    cbn [foldl]. apply IH. by apply exec_wf. }
  apply H, wf_init.
Qed.



Lemma disconnect_single_frame_witness :
  let st' := disconnect_camera (Some "A") no_progress two_sessions in
  active_cameras st' !! "B" = active_cameras two_sessions !! "B"
  ∧ camera_threads st' !! "B" = camera_threads two_sessions !! "B"
  ∧ camera_queues st' !! "B" = camera_queues two_sessions !! "B"
  ∧ camera_captures st' !! "B" = camera_captures two_sessions !! "B"
  ∧ camera_last_update st' !! "B" = camera_last_update two_sessions !! "B"
  ∧ mobile_devices st' = mobile_devices two_sessions.
Proof.
  apply (disconnect_single_frame "A" no_progress two_sessions "B").
  - apply reachable_wf. eexists. reflexivity.
  - discriminate.
  - discriminate.
Defined.

(** ** Where the code departs from the specification *)

(** C1: after [reconnect_while_blocked] gate A has two live workers, and
    the status query answers with the result the old worker (thread 0)
    published after the second connect; the new worker (thread 1) has not
    taken a step. *)
Theorem reconnect_leaves_two_live_workers :
  let st := run reconnect_while_blocked init in
  live_workers "A" st = [0; 1]%nat
  ∧ workers st !! 1%nat = Some (new_worker "A" "1")
  ∧ ∃ s, entry_of "A" (snd (get_camera_status 5300 st)) = Some s
         ∧ s_count s = 42 ∧ s_timestamp s = Some 5200.
Proof.
  cbn zeta. split; [vm_compute; reflexivity|]. split; [vm_compute; reflexivity|].
  eexists. split; [vm_compute; reflexivity|]. split; reflexivity.
Qed.

(** C4: two consecutive passes of the health check over [stalled_mobile],
    five seconds apart and with no step of the restarted worker in between,
    each start a worker for gate A: the restart does not refresh the
    timestamp that made the session stale. *)
Theorem health_check_restarts_twice :
  let st0 := run stalled_mobile init in
  let st1 := check_mobile_camera_health 12000 no_progress st0 in
  let st2 := check_mobile_camera_health 17000 no_progress st1 in
  length (workers st0) = 1%nat
  ∧ length (workers st1) = 2%nat
  ∧ workers st1 !! 1%nat = Some (new_worker "A" "mobile")
  ∧ camera_last_update st1 !! "A" = Some 1000
  ∧ length (workers st2) = 3%nat
  ∧ live_workers "A" st2 = [1; 2]%nat.
Proof. cbn zeta. repeat split; vm_compute; reflexivity. Qed.

(** C8: at the end of [stale_worker_exits] the old worker (thread 0) has
    left through the retry limit; its [finally] clause released the handle
    registered for the gate, which was the new worker's (handle 1), and its
    own handle 0 is still open although no entry is registered any more. *)
Theorem stale_worker_leaks_its_capture :
  let st := run stale_worker_exits init in
  w_pc <$> workers st !! 0%nat = Some Stopped
  ∧ w_cap <$> workers st !! 0%nat = Some (Some 0%nat)
  ∧ w_pc <$> workers st !! 1%nat = Some Running
  ∧ w_cap <$> workers st !! 1%nat = Some (Some 1%nat)
  ∧ elements (open_caps st) = [0%nat]
  ∧ camera_captures st !! "A" = None.
Proof. cbn zeta. repeat split; vm_compute; reflexivity. Qed.

(** * Further properties of the session code *)

(** ** The thread pool *)

Lemma workers_worker_exit tid w st :
  workers (worker_exit tid w st) = <[tid := w_stop w]> (workers st).
Proof. unfold worker_exit. cbn. by rewrite finally_release_workers. Qed.

Lemma workers_worker_fail tid w msg st :
  workers (worker_fail tid w msg st) = <[tid := w_stop w]> (workers st).
Proof. unfold worker_fail. by rewrite workers_worker_exit, publish_workers. Qed.

Lemma worker_ok_stop w : worker_ok w → worker_ok (w_stop w).
Proof.
  intros (Hrc & _ & Hfc & Hd). unfold worker_ok. cbn. split_and!; [lia|lia|done|done|done].
Qed.

Lemma wnext_stop w : wnext w (w_stop w).
Proof.
  unfold wnext. split_and!; [done|done|intros _; apply worker_ok_stop|].
  intros Hr. split; [done|reflexivity].
Qed.

(** The trip that passes the retry limit: the counter is incremented,
    then the worker ends. *)
Lemma wnext_retry_limit w :
  wnext w (w_stop (w_update w Running (w_cap w) (w_is_mobile w) (w_last_processed_time w)
                     (w_frame_count w) (w_retry_count w + 1) (w_detections w))).
Proof.
  unfold wnext. cbn. split_and!; [done|done| |by intros _].
  intros Hpc (Hrc & Hlive & Hfc & Hd). specialize (Hlive Hpc).
  unfold worker_ok. cbn. split_and!; [lia|lia|done|done|done].
Qed.

Lemma halves_succ (fc : Z) :
  (fc + 1) / 2 - fc / 2 = if (fc + 1) mod 2 =? 0 then 1 else 0.
Proof.
  pose proof (Z.div_mod (fc + 1) 2). pose proof (Z.div_mod fc 2).
  pose proof (Z.mod_pos_bound fc 2). pose proof (Z.mod_pos_bound (fc + 1) 2).
  destruct (Z.eqb_spec ((fc + 1) mod 2) 0); lia.
Qed.

Lemma wnext_read w fc' det' last p :
  fc' = w_frame_count w + 1 →
  Z.of_nat det' - Z.of_nat (w_detections w)
    = (if (w_frame_count w + 1) mod 2 =? 0 then 1 else 0) →
  p ≠ Starting →
  wnext w (w_update w p (w_cap w) (w_is_mobile w) last fc' 0 det').
Proof.
  intros -> Hdet Hp. unfold wnext. cbn. split_and!; [done|done| |by intros _].
  intros _ (_ & _ & Hfc & Hd). unfold worker_ok. cbn.
  unfold PROCESS_EVERY_N_FRAMES, max_retries in *.
  pose proof (halves_succ (w_frame_count w)). lia.
Qed.

(** A step of thread [tid] leaves the pool as it is or replaces the
    record of the live worker [tid]. *)
Lemma worker_step_pool tid e st :
  workers (worker_step tid e st) = workers st
  ∨ ∃ w w', workers st !! tid = Some w ∧ w_pc w ≠ Stopped ∧ wnext w w'
            ∧ workers (worker_step tid e st) = <[tid := w']> (workers st).
Proof.
  unfold worker_step. destruct (workers st !! tid) as [w|] eqn:Hw; [|by left].
  destruct (w_pc w) eqn:Hpc; [| |by left]; right; exists w.
  - assert (Hreg : ∀ mob, wnext w
               (w_update w Running (Some tid) mob (w_last_processed_time w)
                  (w_frame_count w) 0 (w_detections w))).
    { intros mob. unfold wnext. cbn. split_and!; [done|done| |congruence].
      intros _ (_ & _ & Hfc & Hd). unfold worker_ok, max_retries. cbn.
      split_and!; [lia|lia|lia|done|done]. }
    unfold acquire. repeat case_match;
      first [ eexists; split; [done|]; split; [congruence|]; split;
              [apply wnext_stop|apply workers_worker_fail]
            | eexists; split; [done|]; split; [congruence|]; split;
              [apply Hreg|reflexivity] ].
  - unfold iterate.
    destruct (negb _).
    { eexists; split; [done|]; split; [congruence|]; split;
        [apply wnext_stop|apply workers_worker_exit]. }
    destruct (_ <? _).
    { exists w. split; [done|]. split; [congruence|]. split.
      - unfold wnext. split_and!; [done|done|by intros ? ?|]. intros _. split; [congruence|done].
      - by rewrite list_insert_id. }
    destruct (e_raise e).
    { eexists; split; [done|]; split; [congruence|]; split;
        [apply wnext_stop|apply workers_worker_fail]. }
    destruct (negb (e_ret e)).
    { destruct (Z.gtb_spec (w_retry_count w + 1) max_retries).
      - eexists; split; [done|]; split; [congruence|]; split;
          [apply wnext_retry_limit|apply workers_worker_fail].
      - eexists; split; [done|]; split; [congruence|]; split; [|reflexivity].
        unfold wnext. cbn. split_and!; [done|done| |by intros _].
        intros _ ((? & ?) & ? & ? & ?). unfold worker_ok. cbn.
        split_and!; [lia|lia|lia|done|done]. }
    unfold PROCESS_EVERY_N_FRAMES.
    destruct (Z.eqb_spec ((w_frame_count w + 1) mod 2) 0) as [Hm|Hm].
    + assert (Hn : ∀ last p, p ≠ Starting → wnext w
                 (w_update w p (w_cap w) (w_is_mobile w) last
                    (w_frame_count w + 1) 0 (S (w_detections w)))).
      { intros last p Hp. apply wnext_read; [done| |done].
        rewrite Hm. cbn [Z.eqb]. lia. }
      destruct (camera_queues st !! w_gate_id w);
        [destruct (config_get GATE_CONFIG (w_gate_id w))|].
      * eexists; split; [done|]; split; [congruence|]; split; [|reflexivity].
        by apply Hn.
      * eexists; split; [done|]; split; [congruence|]; split;
          [|apply workers_worker_fail].
        apply (Hn (w_last_processed_time w) Stopped). done.
      * eexists; split; [done|]; split; [congruence|]; split; [|reflexivity].
        by apply Hn.
    + eexists; split; [done|]; split; [congruence|]; split; [|reflexivity].
      apply wnext_read; [done| |done].
      destruct (Z.eqb_spec ((w_frame_count w + 1) mod 2) 0); [done|lia].
Qed.

Lemma pool_evolves_trans ws1 ws2 ws3 :
  pool_evolves ws1 ws2 → pool_evolves ws2 ws3 → pool_evolves ws1 ws3.
Proof.
  induction 1; intros H3; [done| |].
  - eapply pool_step; eauto.
  - eapply pool_spawn; eauto.
Qed.

Lemma worker_step_evolves tid e st : pool_evolves (workers st) (workers (worker_step tid e st)).
Proof.
  destruct (worker_step_pool tid e st) as [-> | (w & w' & Hw & Hpc & Hn & ->)].
  - apply pool_same.
  - eapply pool_step; [done..|apply pool_same].
Qed.

Lemma join_evolves tid sched : ∀ st, pool_evolves (workers st) (workers (join tid sched st)).
Proof.
  induction sched as [|e sched IH]; intros st; [apply pool_same|].
  cbn [join]. destruct (is_alive st tid); [|apply pool_same].
  eapply pool_evolves_trans; [apply worker_step_evolves|apply IH].
Qed.

Lemma signal_and_join_evolves g sched st :
  pool_evolves (workers st) (workers (signal_and_join g sched st)).
Proof.
  unfold signal_and_join. cbn.
  destruct (camera_threads st !! g); [|apply pool_same].
  apply (join_evolves n sched (with_active _ st)).
Qed.

Lemma spawn_evolves g src st : pool_evolves (workers st) (workers (spawn g src st)).
Proof. eapply pool_spawn. apply pool_same. Qed.

Lemma clean_up_workers gid st : workers (clean_up gid st) = workers st.
Proof. by destruct (clean_up_maps gid st) as (_ & _ & _ & _ & _ & _ & ?). Qed.

Lemma foldl_evolves {A} (f : State → A → State) (l : list A) :
  (∀ s a, pool_evolves (workers s) (workers (f s a))) →
  ∀ st, pool_evolves (workers st) (workers (foldl f st l)).
Proof.
  intros Hf. induction l as [|a l IH]; intros st; [apply pool_same|].
  cbn [foldl]. eapply pool_evolves_trans; [apply Hf|apply IH].
Qed.

Lemma status_loop_workers gates now : ∀ st,
  workers (fst (status_loop gates now st)) = workers st.
Proof.
  induction gates as [|g gates IH]; intros st; [done|].
  cbn [status_loop]. destruct (String.eqb g "Temple"); [apply IH|].
  cbn [fst]. rewrite IH. unfold status_gate.
  by destruct (camera_queues st !! g) as [[|? ?]|].
Qed.

(** Whatever the server does, the pool changes by steps of live workers
    and by new threads only. *)
Lemma exec_evolves o st : pool_evolves (workers st) (workers (exec o st)).
Proof.
  destruct o; cbn [exec].
  - unfold connect_camera. destruct (q_gate_id data) as [g|]; [|apply pool_same].
    destruct (String.eqb g ""); [apply pool_same|].
    set (st1 := if bool_decide _ then _ else st).
    assert (H1 : pool_evolves (workers st) (workers st1))
      by (unfold st1; case_bool_decide; [apply signal_and_join_evolves|apply pool_same]).
    destruct (if String.eqb (q_camera_type data) "mobile" then q_stream_url data else None);
      cbn [fst]; (eapply pool_evolves_trans; [exact H1|]);
      eapply pool_spawn; apply pool_same.
  - unfold register_mobile. repeat case_match; apply pool_same.
  - unfold disconnect_camera. destruct gate_id as [g|]; [|apply pool_same].
    assert (Hg : ∀ s gid, pool_evolves (workers s)
                   (workers (disconnect_gate gid (scheds gid) s))).
    { intros s gid. unfold disconnect_gate. rewrite clean_up_workers.
      apply signal_and_join_evolves. }
    destruct (String.eqb g "all").
    + apply (foldl_evolves (λ s gid, disconnect_gate gid (scheds gid) s)). exact Hg.
    + case_bool_decide; [apply Hg|apply pool_same].
  - unfold get_camera_status. rewrite status_loop_workers. apply pool_same.
  - unfold check_mobile_camera_health.
    apply (foldl_evolves (λ s g, health_gate now g (scheds g) s)).
    intros s g. unfold health_gate. repeat case_match; try apply pool_same;
      (eapply pool_evolves_trans; [apply signal_and_join_evolves|]);
      eapply pool_spawn; apply pool_same.
  - apply worker_step_evolves.
Qed.

Lemma run_evolves ops : ∀ st, pool_evolves (workers st) (workers (run ops st)).
Proof.
  unfold run. induction ops as [|o ops IH]; intros st; [apply pool_same|].
  cbn [foldl]. eapply pool_evolves_trans; [apply exec_evolves|apply IH].
Qed.

Lemma pool_evolves_stopped ws ws' :
  pool_evolves ws ws' →
  ∀ tid w, ws !! tid = Some w → w_pc w = Stopped → ws' !! tid = Some w.
Proof.
  induction 1 as [ws|ws t w0 w0' ws' Hw0 Hpc0 Hn _ IH|ws g src ws' _ IH];
    intros tid w Hw Hpc; [done| |].
  - apply IH; [|done]. destruct (decide (t = tid)) as [->|Hne]; [congruence|].
    by rewrite list_lookup_insert_ne.
  - apply IH; [|done]. by apply lookup_app_l_Some.
Qed.

Lemma pool_evolves_identity ws ws' :
  pool_evolves ws ws' →
  (length ws ≤ length ws')%nat
  ∧ ∀ tid w, ws !! tid = Some w →
      ∃ w', ws' !! tid = Some w' ∧ w_gate_id w' = w_gate_id w
            ∧ w_camera_source w' = w_camera_source w
            ∧ (w_pc w = Running → w_pc w' ≠ Starting).
Proof.
  induction 1 as [ws|ws t w0 w0' ws' Hw0 Hpc0 Hn Hev IH|ws g src ws' _ IH].
  - split; [done|]. intros tid w Hw. exists w. split_and!; [done..|congruence].
  - destruct IH as [Hlen IH]. rewrite length_insert in Hlen. split; [done|].
    intros tid w Hw. destruct (decide (t = tid)) as [->|Hne].
    + assert (w0 = w) as -> by congruence.
      assert (Hin : <[tid := w0']> ws !! tid = Some w0')
        by (apply list_lookup_insert_eq; by eapply lookup_lt_Some).
      destruct (IH tid w0' Hin) as (w' & Hw' & Hg & Hs & Hp).
      destruct Hn as (Hg0 & Hs0 & _ & Hp0).
      exists w'. split_and!; [done|congruence|congruence|].
      intros Hr. destruct (Hp0 Hr) as [Hns _].
      destruct (w_pc w0') eqn:E; [done|by apply Hp|].
      pose proof (pool_evolves_stopped _ _ Hev tid w0' Hin E) as Hst.
      assert (w' = w0') as -> by congruence. congruence.
    + apply IH. by rewrite list_lookup_insert_ne.
  - destruct IH as [Hlen IH]. rewrite length_app in Hlen. cbn in Hlen. split; [lia|].
    intros tid w Hw. apply IH. by apply lookup_app_l_Some.
Qed.



(** X2: threads are never removed or renumbered: through any sequence of
    operations a thread keeps its gate and its camera source, a worker that
    has entered its loop never goes back to the acquisition, and the record
    of a stopped worker is never touched again (a restart is a new thread). *)
Theorem worker_lifecycle (ops : list op) (st : State) (tid : nat) (w : Worker) :
  workers st !! tid = Some w →
  (length (workers st) ≤ length (workers (run ops st)))%nat
  ∧ ∃ w', workers (run ops st) !! tid = Some w'
          ∧ w_gate_id w' = w_gate_id w ∧ w_camera_source w' = w_camera_source w
          ∧ (w_pc w = Running → w_pc w' ≠ Starting)
          ∧ (w_pc w = Stopped → w' = w).
Proof.
  intros Hw. pose proof (run_evolves ops st) as Hev.
  destruct (pool_evolves_identity _ _ Hev) as [Hlen Hid].
  split; [exact Hlen|].
  destruct (Hid tid w Hw) as (w' & Hw' & Hg & Hs & Hp).
  exists w'. split_and!; try done.
  intros Hst. pose proof (pool_evolves_stopped _ _ Hev tid w Hw Hst). congruence.
Qed.


Lemma worker_lifecycle_witness :
  (length (workers sample_session)
   ≤ length (workers (run [Disconnect (Some "all") no_progress] sample_session)))%nat
  ∧ ∃ w', workers (run [Disconnect (Some "all") no_progress] sample_session) !! 0%nat = Some w'
          ∧ w_gate_id w' = w_gate_id sample_worker
          ∧ w_camera_source w' = w_camera_source sample_worker
          ∧ (w_pc sample_worker = Running → w_pc w' ≠ Starting)
          ∧ (w_pc sample_worker = Stopped → w' = sample_worker).
Proof.
  apply (worker_lifecycle [Disconnect (Some "all") no_progress] sample_session 0 sample_worker).
  vm_compute. reflexivity.
Defined.

(** ** What the queues hold *)

Lemma publish_ok g item st : item_ok g item → queues_ok st → queues_ok (publish g item st).
Proof.
  intros Hi Hq. unfold publish. destruct (camera_queues st !! g) as [q|] eqn:E; [|done].
  intros g' q'. cbn. rewrite lookup_insert. case_decide as Hd.
  - subst g'. intros [= <-]. apply Forall_app. split; [by eapply Hq|by apply Forall_singleton].
  - apply Hq.
Qed.

Lemma finally_release_queues g st : camera_queues (finally_release g st) = camera_queues st.
Proof. unfold finally_release. by destruct (camera_captures st !! g). Qed.

Lemma worker_fail_ok tid w msg st :
  msg ≠ "" → queues_ok st → queues_ok (worker_fail tid w msg st).
Proof.
  intros Hm Hq. unfold worker_fail, worker_exit.
  intros g q. cbn. rewrite finally_release_queues.
  apply (publish_ok (w_gate_id w) (error_item msg) st); [|done].
  left. by exists msg.
Qed.

Lemma worker_exit_ok tid w st : queues_ok st → queues_ok (worker_exit tid w st).
Proof. intros Hq g q. unfold worker_exit. cbn. rewrite finally_release_queues. apply Hq. Qed.

Lemma append_nonempty (prefix msg : string) : prefix ≠ "" → prefix +:+ msg ≠ "".
Proof. destruct prefix; [done|]. intros _. discriminate. Qed.

Lemma worker_step_ok tid e st : queues_ok st → queues_ok (worker_step tid e st).
Proof.
  intros Hq. unfold worker_step. destruct (workers st !! tid) as [w|]; [|done].
  destruct (w_pc w); [| |done].
  - unfold acquire. repeat case_match;
      first [ exact Hq
            | apply worker_fail_ok; [|done]; first [by apply append_nonempty|done] ].
  - unfold iterate. repeat case_match;
      first [ exact Hq
            | by apply worker_exit_ok
            | apply worker_fail_ok; [|done]; first [by apply append_nonempty|done]
            | idtac ].
    intros gate items. cbn. rewrite lookup_insert.
    destruct (decide (w_gate_id w = gate)) as [Hd|Hd]; [|apply Hq].
    subst gate. intros [= <-]. apply Forall_app. split; [by eapply Hq|].
    apply Forall_singleton. right. eexists. split; [eassumption|]. by cbn.
Qed.

Lemma join_ok tid sched : ∀ st, queues_ok st → queues_ok (join tid sched st).
Proof.
  induction sched as [|e sched IH]; intros st Hq; [done|].
  cbn [join]. destruct (is_alive st tid); [|done]. apply IH. by apply worker_step_ok.
Qed.

Lemma signal_and_join_ok g sched st : queues_ok st → queues_ok (signal_and_join g sched st).
Proof.
  intros Hq. unfold signal_and_join. cbn.
  destruct (camera_threads st !! g); [|done]. by apply join_ok.
Qed.

Lemma fresh_queue_ok g st :
  queues_ok st → ∀ g' q, <[g := []]> (camera_queues st) !! g' = Some q → Forall (item_ok g') q.
Proof.
  intros Hq g' q. rewrite lookup_insert. case_decide; [by intros [= <-]|apply Hq].
Qed.

Lemma disconnect_gate_ok gid sched st : queues_ok st → queues_ok (disconnect_gate gid sched st).
Proof.
  intros Hq. apply (signal_and_join_ok gid sched) in Hq.
  unfold disconnect_gate. intros g q.
  destruct (clean_up_maps gid (signal_and_join gid sched st)) as (_ & -> & _).
  intros H. apply lookup_delete_Some in H as [_ H]. by eapply Hq.
Qed.

Lemma status_gate_ok now g st : queues_ok st → queues_ok (fst (status_gate now g st)).
Proof.
  intros Hq. unfold status_gate.
  destruct (camera_queues st !! g) as [[|d q]|] eqn:E; cbn [fst]; try done.
  intros g' q'. cbn. rewrite lookup_insert. case_decide as Hd; [|apply Hq].
  subst g'. intros [= <-]. specialize (Hq _ _ E). by apply Forall_cons in Hq as [_ ?].
Qed.

Lemma exec_ok o st : queues_ok st → queues_ok (exec o st).
Proof.
  intros Hq. destruct o; cbn [exec].
  - unfold connect_camera. destruct (q_gate_id data) as [g|]; [|done].
    destruct (String.eqb g ""); [done|].
    set (st1 := if bool_decide _ then _ else st).
    assert (H1 : queues_ok st1)
      by (unfold st1; case_bool_decide; [by apply signal_and_join_ok|done]).
    destruct (if String.eqb (q_camera_type data) "mobile" then q_stream_url data else None);
      cbn [fst]; intros g' q'; cbn; by apply fresh_queue_ok.
  - unfold register_mobile. by repeat case_match.
  - unfold disconnect_camera. destruct gate_id as [g|]; [|done].
    destruct (String.eqb g "all").
    + generalize (elements (dom (active_cameras st))). intros gids.
      revert st Hq. induction gids as [|gid gids IH]; intros st Hq; [done|].
      cbn [foldl]. apply IH. by apply disconnect_gate_ok.
    + case_bool_decide; [by apply disconnect_gate_ok|done].
  - unfold get_camera_status. generalize (map fst GATE_CONFIG). intros gates.
    revert st Hq. induction gates as [|g gates IH]; intros st Hq; [done|].
    cbn [status_loop]. destruct (String.eqb g "Temple"); [by apply IH|].
    cbn [fst]. apply IH. by apply status_gate_ok.
  - unfold check_mobile_camera_health.
    generalize (elements (dom (mobile_devices st))). intros gids.
    revert st Hq. induction gids as [|g gids IH]; intros st Hq; [done|].
    cbn [foldl]. apply IH. unfold health_gate. repeat case_match; try done;
      intros g' q'; cbn; apply fresh_queue_ok; by apply signal_and_join_ok.
  - by apply worker_step_ok.
Qed.

Lemma reachable_queues_ok st : reachable st → queues_ok st.
Proof.
  intros [ops ->]. unfold run.
  assert (H : ∀ s, queues_ok s → queues_ok (foldl (λ s o, exec o s) s ops)).
  { induction ops as [|o ops IH]; intros s Hs; [done|].
    cbn [foldl]. apply IH. by apply exec_ok. }
  apply H. intros g' q'. cbn. rewrite lookup_empty. discriminate.
Qed.

(** X3: in every reachable state each item waiting on the queue of a
    gate is either an error report (status disconnected, count 0, a
    non-empty error, no frame and no timestamp) or a result for a gate of
    GATE_CONFIG, without error, with a frame and a timestamp, whose status is
    the classification of its count against the gate's capacity.  So the
    queue of a gate outside GATE_CONFIG only ever holds error reports. *)
Theorem queued_items_invariant (st : State) (g : string) (q : list GateStatus)
    (item : GateStatus) :
  reachable st → camera_queues st !! g = Some q → item ∈ q →
  (∃ msg, item = error_item msg ∧ msg ≠ "")
  ∨ (∃ d, config_get GATE_CONFIG g = Some d
          ∧ r_status item = classify (r_count item) (capacity d)
          ∧ r_error item = None ∧ is_Some (r_timestamp item) ∧ is_Some (r_frame item)).
Proof.
  intros Hr Hq Hin. pose proof (reachable_queues_ok st Hr g q Hq) as Hok.
  rewrite Forall_forall in Hok. by apply Hok.
Qed.

Lemma queued_items_invariant_witness :
  let st := run reconnect_while_blocked init in
  let item := {| r_error := None; r_count := 42; r_status := normal;
                 r_frame := Some "data:image/jpeg;base64,/9j/";
                 r_timestamp := Some 5200; r_is_mobile := Some false |} in
  (∃ msg, item = error_item msg ∧ msg ≠ "")
  ∨ (∃ d, config_get GATE_CONFIG "A" = Some d
          ∧ r_status item = classify (r_count item) (capacity d)
          ∧ r_error item = None ∧ is_Some (r_timestamp item) ∧ is_Some (r_frame item)).
Proof.
  apply (queued_items_invariant (run reconnect_while_blocked init) "A"
           [{| r_error := None; r_count := 42; r_status := normal;
               r_frame := Some "data:image/jpeg;base64,/9j/";
               r_timestamp := Some 5200; r_is_mobile := Some false |}]).
  - eexists. reflexivity.
  - vm_compute. reflexivity.
  - apply elem_of_cons. by left.
Defined.

(** ** Acquisition and exit of a worker *)

Lemma worker_exit_captures tid w st :
  camera_captures (worker_exit tid w st) !! w_gate_id w = None
  ∧ (∀ h, camera_captures st !! w_gate_id w = Some h → h ∉ open_caps (worker_exit tid w st))
  ∧ open_caps (worker_exit tid w st) ⊆ open_caps st.
Proof.
  unfold worker_exit, finally_release. cbn.
  destruct (camera_captures st !! w_gate_id w) as [h|] eqn:E; cbn.
  - rewrite lookup_delete_eq. split_and!; [done| |set_solver].
    intros h' [= <-]. set_solver.
  - split_and!; [done|done|set_solver].
Qed.

Lemma publish_captures g item st :
  camera_captures (publish g item st) = camera_captures st
  ∧ open_caps (publish g item st) = open_caps st.
Proof. unfold publish. by destruct (camera_queues st !! g). Qed.

Lemma worker_fail_captures tid w msg st :
  camera_captures (worker_fail tid w msg st) !! w_gate_id w = None
  ∧ (∀ h, camera_captures st !! w_gate_id w = Some h →
          h ∉ open_caps (worker_fail tid w msg st))
  ∧ open_caps (worker_fail tid w msg st) ⊆ open_caps st.
Proof.
  unfold worker_fail.
  destruct (publish_captures (w_gate_id w) (error_item msg) st) as [Hc Ho].
  destruct (worker_exit_captures tid w (publish (w_gate_id w) (error_item msg) st))
    as (H1 & H2 & H3).
  rewrite Hc, Ho in *. done.
Qed.

Lemma worker_fail_queue tid w msg st :
  camera_queues (worker_fail tid w msg st) !! w_gate_id w
  = (λ q, q ++ [error_item msg]) <$> camera_queues st !! w_gate_id w.
Proof.
  unfold worker_fail, worker_exit. cbn. rewrite finally_release_queues. unfold publish.
  destruct (camera_queues st !! w_gate_id w) as [q|] eqn:E; cbn; [|by rewrite E].
  by rewrite lookup_insert_eq.
Qed.

Lemma worker_fail_stopped tid w w0 msg st :
  workers st !! tid = Some w0 →
  workers (worker_fail tid w msg st) !! tid = Some (w_stop w).
Proof.
  intros Hw. rewrite workers_worker_fail. apply list_lookup_insert_eq.
  by eapply lookup_lt_Some.
Qed.

Lemma worker_exit_stopped tid w w0 st :
  workers st !! tid = Some w0 →
  workers (worker_exit tid w st) !! tid = Some (w_stop w).
Proof.
  intros Hw. rewrite workers_worker_exit. apply list_lookup_insert_eq.
  by eapply lookup_lt_Some.
Qed.

(** X4: when the step of a live worker stops it (by any return of the
    acquisition, by a cleared flag, by the retry limit or by an exception),
    its [finally] clause leaves no capture registered for the gate and has
    released the handle that was registered; no handle is opened by such a
    step. *)
Theorem stopping_worker_unregisters (tid : nat) (e : Env) (st : State) (w : Worker) :
  workers st !! tid = Some w → w_pc w ≠ Stopped →
  w_pc <$> workers (worker_step tid e st) !! tid = Some Stopped →
  camera_captures (worker_step tid e st) !! w_gate_id w = None
  ∧ (∀ h, camera_captures st !! w_gate_id w = Some h → h ∉ open_caps (worker_step tid e st))
  ∧ open_caps (worker_step tid e st) ⊆ open_caps st.
Proof.
  intros Hw Hpc. unfold worker_step. rewrite Hw.
  assert (Hlen : (tid < length (workers st))%nat) by by eapply lookup_lt_Some.
  destruct (w_pc w) eqn:E; [| |done].
  - unfold acquire, register_capture. repeat case_match;
      first [ intros _; apply worker_fail_captures
            | cbn; rewrite list_lookup_insert_eq by done; discriminate ].
  - unfold iterate. repeat case_match;
      first [ intros _; apply worker_fail_captures
            | intros _; apply worker_exit_captures
            | rewrite Hw; cbn; rewrite E; discriminate
            | cbn; rewrite list_lookup_insert_eq by done; discriminate
            | idtac ].
    + intros _. apply (worker_fail_captures tid
        (w_update w Running (w_cap w) (w_is_mobile w) (w_last_processed_time w)
           (w_frame_count w) (w_retry_count w + 1) (w_detections w))).
    + intros _. apply (worker_fail_captures tid
        (w_update w Running (w_cap w) (w_is_mobile w) (w_last_processed_time w)
           (w_frame_count w + 1) 0 (S (w_detections w)))).
Qed.

Lemma stopping_worker_unregisters_witness :
  let st := run_worker 0 (replicate 10 (sample_env 2000 false)) sample_session in
  let e := sample_env 2000 false in
  camera_captures (worker_step 0 e st) !! w_gate_id (with_retries 10 sample_worker) = None
  ∧ (∀ h, camera_captures st !! w_gate_id (with_retries 10 sample_worker) = Some h →
          h ∉ open_caps (worker_step 0 e st))
  ∧ open_caps (worker_step 0 e st) ⊆ open_caps st.
Proof.
  apply (stopping_worker_unregisters 0 (sample_env 2000 false)
           (run_worker 0 (replicate 10 (sample_env 2000 false)) sample_session)
           (with_retries 10 sample_worker)).
  - vm_compute. reflexivity.
  - discriminate.
  - vm_compute. reflexivity.
Defined.

(** X5: the acquisition of a worker ends in one of two ways.  If the
    source resolves and the capture opens, the worker enters its loop with
    its own handle registered for the gate and open, a retry counter of 0,
    the mobile flag set exactly for a registered mobile source, and nothing
    published.  Otherwise the worker ends: the gate's queue, if it has one,
    receives exactly one error report with a non-empty message, no capture
    stays registered for the gate, and the worker takes no further step
    (the failure is not retried). *)
Theorem acquisition_outcome (tid : nat) (e e' : Env) (st : State) (w : Worker) :
  workers st !! tid = Some w → w_pc w = Starting →
  let st' := worker_step tid e st in
  if opens w e st then
    (∃ w', workers st' !! tid = Some w' ∧ w_pc w' = Running ∧ w_cap w' = Some tid
           ∧ w_retry_count w' = 0
           ∧ w_is_mobile w'
             = (bool_decide (is_Some (mobile_devices st !! w_gate_id w))
                && String.eqb (w_camera_source w) "mobile"))
    ∧ camera_captures st' !! w_gate_id w = Some tid
    ∧ tid ∈ open_caps st'
    ∧ camera_queues st' = camera_queues st
  else
    w_pc <$> workers st' !! tid = Some Stopped
    ∧ (∃ msg, msg ≠ ""
              ∧ camera_queues st' !! w_gate_id w
                = (λ q, q ++ [error_item msg]) <$> camera_queues st !! w_gate_id w)
    ∧ camera_captures st' !! w_gate_id w = None
    ∧ worker_step tid e' st' = st'.
Proof.
  intros Hw Hpc. cbn zeta.
  assert (Hstep : worker_step tid e st = acquire tid w e st)
    by (unfold worker_step; by rewrite Hw, Hpc).
  rewrite Hstep. clear Hstep.
  assert (Hlen : (tid < length (workers st))%nat) by by eapply lookup_lt_Some.
  assert (Hfail : ∀ msg, msg ≠ "" →
    w_pc <$> workers (worker_fail tid w msg st) !! tid = Some Stopped
    ∧ (∃ msg0, msg0 ≠ ""
         ∧ camera_queues (worker_fail tid w msg st) !! w_gate_id w
           = (λ q, q ++ [error_item msg0]) <$> camera_queues st !! w_gate_id w)
    ∧ camera_captures (worker_fail tid w msg st) !! w_gate_id w = None
    ∧ worker_step tid e' (worker_fail tid w msg st) = worker_fail tid w msg st).
  { intros msg Hm. pose proof (worker_fail_stopped tid w w msg st Hw) as Hs.
    split_and!.
    - by rewrite Hs.
    - exists msg. split; [done|apply worker_fail_queue].
    - apply worker_fail_captures.
    - unfold worker_step. by rewrite Hs. }
  assert (Hok : ∀ mob,
    (∃ w', workers (register_capture tid w mob st) !! tid = Some w' ∧ w_pc w' = Running
           ∧ w_cap w' = Some tid ∧ w_retry_count w' = 0 ∧ w_is_mobile w' = mob)
    ∧ camera_captures (register_capture tid w mob st) !! w_gate_id w = Some tid
    ∧ tid ∈ open_caps (register_capture tid w mob st)
    ∧ camera_queues (register_capture tid w mob st) = camera_queues st).
  { intros mob. unfold register_capture. cbn. split_and!.
    - eexists. split; [by apply list_lookup_insert_eq|]. by cbn.
    - by rewrite lookup_insert_eq.
    - set_solver.
    - done. }
  unfold opens, acquire.
  destruct (e_raise e) as [msg|]; [by apply Hfail, append_nonempty|].
  destruct (bool_decide (is_Some (mobile_devices st !! w_gate_id w))
            && String.eqb (w_camera_source w) "mobile") eqn:Hmob; cbn [orb].
  - destruct (e_opened e); cbn [andb]; [apply Hok|by apply Hfail].
  - destruct (e_int e) as [i|]; cbn.
    + destruct (e_opened e); cbn [andb]; [apply Hok|by apply Hfail, append_nonempty].
    + destruct (e_valid_url e), (e_opened e); cbn;
        first [apply Hok|by apply Hfail, append_nonempty].
Qed.

Lemma acquisition_outcome_witness :
  let st := run [Connect (webcam_request "A" "0") 1000 []] init in
  let w := new_worker "A" "0" in
  let e := sample_env 1000 true in
  let st' := worker_step 0 e st in
  if opens w e st then
    (∃ w', workers st' !! 0%nat = Some w' ∧ w_pc w' = Running ∧ w_cap w' = Some 0%nat
           ∧ w_retry_count w' = 0
           ∧ w_is_mobile w'
             = (bool_decide (is_Some (mobile_devices st !! w_gate_id w))
                && String.eqb (w_camera_source w) "mobile"))
    ∧ camera_captures st' !! w_gate_id w = Some 0%nat
    ∧ 0%nat ∈ open_caps st'
    ∧ camera_queues st' = camera_queues st
  else
    w_pc <$> workers st' !! 0%nat = Some Stopped
    ∧ (∃ msg, msg ≠ ""
              ∧ camera_queues st' !! w_gate_id w
                = (λ q, q ++ [error_item msg]) <$> camera_queues st !! w_gate_id w)
    ∧ camera_captures st' !! w_gate_id w = None
    ∧ worker_step 0 (closed_env 0) st' = st'.
Proof.
  apply (acquisition_outcome 0 (sample_env 1000 true) (closed_env 0)
           (run [Connect (webcam_request "A" "0") 1000 []] init) (new_worker "A" "0")).
  - vm_compute. reflexivity.
  - reflexivity.
Defined.

(** [repr] of a plain gate id, of one with a single quote, of one with
    both quotes, and of one with a backslash and a line feed. *)
Lemma repr_examples :
  repr "Z" = "'Z'"
  ∧ repr "a'b" = String dquote ("a'b" +:+ String dquote "")
  ∧ repr (String dquote "'") = String squote (String dquote ("\'" +:+ "'"))
  ∧ repr (String backslash (String (ascii_of_nat 10) (String (ascii_of_nat 1) "")))
    = "'\\\n\x01'".
Proof. repeat split. Qed.

(** X6: connect_camera accepts a gate id that GATE_CONFIG does not list,
    but the worker of such a gate cannot publish a count: the first frame it
    forwards to detection makes the lookup of the capacity fail, the worker
    puts an error report on the queue whose message is 'Camera error: '
    followed by repr(gate_id), the text of the KeyError (the id in single
    quotes, or in double quotes when it has a single quote and no double
    quote, with quote, backslash and unprintable characters escaped),
    unregisters the capture and ends. *)
Theorem unconfigured_gate_stops_worker (tid : nat) (e : Env) (st : State) (w : Worker)
    (q : list GateStatus) :
  workers st !! tid = Some w → w_pc w = Running →
  active_cameras st !! w_gate_id w = Some true → good_read w e →
  (w_frame_count w + 1) mod PROCESS_EVERY_N_FRAMES = 0 →
  camera_queues st !! w_gate_id w = Some q →
  config_get GATE_CONFIG (w_gate_id w) = None →
  let st' := worker_step tid e st in
  w_pc <$> workers st' !! tid = Some Stopped
  ∧ camera_queues st' !! w_gate_id w
    = Some (q ++ [error_item ("Camera error: " +:+ repr (w_gate_id w))])
  ∧ camera_captures st' !! w_gate_id w = None.
Proof.
  intros Hw Hpc Ha [Hr Hret] Hm Hq Hc. cbn zeta.
  rewrite (worker_step_running _ _ _ _ Hw Hpc). unfold iterate.
  rewrite bool_decide_eq_true_2 by done. cbn [negb].
  rewrite (reads_not_skipped _ _ Hr). destruct Hr as [_ ->]. rewrite Hret. cbn [negb].
  rewrite Hm, Hq, Hc. cbn [Z.eqb].
  set (w1 := w_update _ _ _ _ _ _ _ _). set (msg := "Camera error: " +:+ _).
  split_and!.
  - by rewrite (worker_fail_stopped tid w1 w _ st Hw).
  - change (w_gate_id w) with (w_gate_id w1) at 1. rewrite worker_fail_queue.
    change (w_gate_id w1) with (w_gate_id w). by rewrite Hq.
  - apply (worker_fail_captures tid w1).
Qed.

Lemma unconfigured_gate_stops_worker_witness :
  let w := w_update (new_worker "Z" "0") Running (Some 0%nat) false 0 1 0 0 in
  let st' := worker_step 0 (sample_env 3000 true) unconfigured_session in
  w_pc <$> workers st' !! 0%nat = Some Stopped
  ∧ camera_queues st' !! w_gate_id w
    = Some ([] ++ [error_item ("Camera error: " +:+ repr (w_gate_id w))])
  ∧ camera_captures st' !! w_gate_id w = None.
Proof.
  apply (unconfigured_gate_stops_worker 0 (sample_env 3000 true) unconfigured_session
           (w_update (new_worker "Z" "0") Running (Some 0%nat) false 0 1 0 0) []).
  - vm_compute. reflexivity.
  - reflexivity.
  - vm_compute. reflexivity.
  - vm_compute. repeat split; discriminate.
  - reflexivity.
  - vm_compute. reflexivity.
  - reflexivity.
Defined.

(** ** Rate governance *)

Lemma run_worker_stopped tid envs : ∀ st w,
  workers st !! tid = Some w → w_pc w = Stopped → run_worker tid envs st = st.
Proof.
  induction envs as [|e envs IH]; intros st w Hw Hpc; [done|].
  cbn [run_worker foldl]. fold (run_worker tid envs (worker_step tid e st)).
  assert (Hs : worker_step tid e st = st) by (unfold worker_step; by rewrite Hw, Hpc).
  rewrite Hs. by eapply IH.
Qed.

(** One step publishes nothing, one result not earlier than a frame
    interval after the previous one, or the final error report. *)
Lemma worker_step_publishes tid e st w q :
  workers st !! tid = Some w → camera_queues st !! w_gate_id w = Some q →
  ∃ w', workers (worker_step tid e st) !! tid = Some w' ∧ w_gate_id w' = w_gate_id w
    ∧ ((camera_queues (worker_step tid e st) !! w_gate_id w = Some q
        ∧ w_last_processed_time w' = w_last_processed_time w)
       ∨ (∃ item t, camera_queues (worker_step tid e st) !! w_gate_id w = Some (q ++ [item])
                    ∧ r_timestamp item = Some t
                    ∧ w_last_processed_time w + frame_interval <= t
                    ∧ w_last_processed_time w' = t)
       ∨ (∃ msg, camera_queues (worker_step tid e st) !! w_gate_id w
                 = Some (q ++ [error_item msg])
                 ∧ w_pc w' = Stopped)).
Proof.
  intros Hw Hq.
  assert (Hlen : (tid < length (workers st))%nat) by by eapply lookup_lt_Some.
  assert (Hfail : ∀ w1 msg, w_gate_id w1 = w_gate_id w →
    ∃ w', workers (worker_fail tid w1 msg st) !! tid = Some w' ∧ w_gate_id w' = w_gate_id w
      ∧ ((camera_queues (worker_fail tid w1 msg st) !! w_gate_id w = Some q
          ∧ w_last_processed_time w' = w_last_processed_time w)
         ∨ (∃ item t, camera_queues (worker_fail tid w1 msg st) !! w_gate_id w
                      = Some (q ++ [item])
                      ∧ r_timestamp item = Some t
                      ∧ w_last_processed_time w + frame_interval <= t
                      ∧ w_last_processed_time w' = t)
         ∨ (∃ msg0, camera_queues (worker_fail tid w1 msg st) !! w_gate_id w
                    = Some (q ++ [error_item msg0])
                    ∧ w_pc w' = Stopped))).
  { intros w1 msg Hg. exists (w_stop w1).
    split; [by eapply worker_fail_stopped|]. split; [exact Hg|].
    right. right. exists msg. split; [|done].
    rewrite <- Hg, worker_fail_queue, Hg, Hq. done. }
  assert (Hset : ∀ w1, w_gate_id w1 = w_gate_id w →
    w_last_processed_time w1 = w_last_processed_time w →
    ∃ w', workers (set_worker tid w1 st) !! tid = Some w' ∧ w_gate_id w' = w_gate_id w
      ∧ ((camera_queues (set_worker tid w1 st) !! w_gate_id w = Some q
          ∧ w_last_processed_time w' = w_last_processed_time w)
         ∨ (∃ item t, camera_queues (set_worker tid w1 st) !! w_gate_id w
                      = Some (q ++ [item])
                      ∧ r_timestamp item = Some t
                      ∧ w_last_processed_time w + frame_interval <= t
                      ∧ w_last_processed_time w' = t)
         ∨ (∃ msg0, camera_queues (set_worker tid w1 st) !! w_gate_id w
                    = Some (q ++ [error_item msg0])
                    ∧ w_pc w' = Stopped))).
  { intros w1 Hg Hl. exists w1. split; [by eapply set_worker_lookup|].
    split; [exact Hg|]. left. by split. }
  unfold worker_step. rewrite Hw.
  destruct (w_pc w) eqn:Hpc.
  - unfold acquire. repeat case_match; try (by apply Hfail);
      unfold register_capture; eexists;
      (split; [cbn; by apply list_lookup_insert_eq|]); (split; [done|]); left; by split.
  - unfold iterate.
    destruct (negb _).
    { exists (w_stop w). split; [by eapply worker_exit_stopped|]. split; [done|].
      left. split; [|done]. unfold worker_exit. cbn. by rewrite finally_release_queues. }
    destruct (Z.ltb_spec (e_now e - w_last_processed_time w) frame_interval) as [|Hnow].
    { exists w. split; [done|]. split; [done|]. left. by split. }
    destruct (e_raise e); [by apply Hfail|].
    destruct (negb (e_ret e)).
    { destruct (_ >? _); [by apply Hfail|by apply Hset]. }
    destruct (_ =? 0); [|by apply Hset].
    rewrite Hq. destruct (config_get GATE_CONFIG (w_gate_id w)); [|by apply Hfail].
    eexists. split; [cbn; by apply list_lookup_insert_eq|]. split; [done|].
    right. left. eexists _, (e_now e). cbn. rewrite lookup_insert_eq.
    split_and!; [done|done|lia|done].
  - exists w. split; [done|]. split; [done|]. left. by split.
Qed.

(** X7: the results a worker adds to its gate's queue are at least one
    frame interval (100 ms) apart on the worker's clock, the first one at
    least one interval after the worker's last processing time; an error
    report, if there is one, is the last item the worker adds.  Whatever the
    schedule, a worker publishes at most TARGET_FPS results per second. *)
Theorem results_are_paced (tid : nat) (envs : list Env) (st : State) (w : Worker)
    (q : list GateStatus) :
  workers st !! tid = Some w → camera_queues st !! w_gate_id w = Some q →
  ∃ added, camera_queues (run_worker tid envs st) !! w_gate_id w = Some (q ++ added)
           ∧ paced (w_last_processed_time w) added.
Proof.
  revert st w q. induction envs as [|e envs IH]; intros st w q Hw Hq.
  - exists []. cbn. by rewrite app_nil_r.
  - cbn [run_worker foldl]. fold (run_worker tid envs (worker_step tid e st)).
    destruct (worker_step_publishes tid e st w q Hw Hq)
      as (w' & Hw' & Hg & [[Hq' Hl] | [(item & t & Hq' & Ht & Hle & Hl) | (msg & Hq' & Hs)]]).
    + rewrite <- Hg in Hq'. destruct (IH _ _ _ Hw' Hq') as (added & Ha & Hp).
      exists added. rewrite <- Hg, Ha. by rewrite <- Hl.
    + rewrite <- Hg in Hq'. destruct (IH _ _ _ Hw' Hq') as (added & Ha & Hp).
      exists (item :: added). rewrite <- Hg, Ha, <- app_assoc. split; [done|].
      cbn. rewrite Ht. split; [done|]. by rewrite <- Hl.
    + rewrite (run_worker_stopped tid envs _ w' Hw' Hs).
      exists [error_item msg]. split; [done|]. by cbn.
Qed.

Lemma results_are_paced_witness :
  ∃ added,
    camera_queues
      (run_worker 0 [sample_env 2000 true; sample_env 2010 true; sample_env 2020 true;
                     sample_env 2030 true; sample_env 2110 true] sample_session)
      !! w_gate_id sample_worker = Some ([] ++ added)
    ∧ paced (w_last_processed_time sample_worker) added.
Proof.
  apply (results_are_paced 0 _ sample_session sample_worker []).
  - vm_compute. reflexivity.
  - vm_compute. reflexivity.
Defined.

(** ** The status query as a consumer *)

Lemma status_gate_keeps now g st :
  active_cameras (fst (status_gate now g st)) = active_cameras st
  ∧ camera_threads (fst (status_gate now g st)) = camera_threads st
  ∧ camera_captures (fst (status_gate now g st)) = camera_captures st
  ∧ mobile_devices (fst (status_gate now g st)) = mobile_devices st
  ∧ workers (fst (status_gate now g st)) = workers st
  ∧ open_caps (fst (status_gate now g st)) = open_caps st
  ∧ ∀ g', g' ≠ g →
      camera_queues (fst (status_gate now g st)) !! g' = camera_queues st !! g'
      ∧ camera_last_update (fst (status_gate now g st)) !! g' = camera_last_update st !! g'.
Proof.
  unfold status_gate. destruct (camera_queues st !! g) as [[|d q]|]; cbn; split_and!; try done.
  intros g' Hne. by rewrite !lookup_insert_ne.
Qed.

Lemma status_loop_keeps gates now : ∀ st,
  active_cameras (fst (status_loop gates now st)) = active_cameras st
  ∧ camera_threads (fst (status_loop gates now st)) = camera_threads st
  ∧ camera_captures (fst (status_loop gates now st)) = camera_captures st
  ∧ mobile_devices (fst (status_loop gates now st)) = mobile_devices st
  ∧ workers (fst (status_loop gates now st)) = workers st
  ∧ open_caps (fst (status_loop gates now st)) = open_caps st
  ∧ ∀ g', (g' ∉ gates ∨ g' = "Temple") →
      camera_queues (fst (status_loop gates now st)) !! g' = camera_queues st !! g'
      ∧ camera_last_update (fst (status_loop gates now st)) !! g' = camera_last_update st !! g'.
Proof.
  induction gates as [|g gates IH]; intros st; [by split_and!|].
  cbn [status_loop]. destruct (String.eqb_spec g "Temple") as [->|HT].
  - destruct (IH st) as (A & T & C & M & W & O & F). split_and!; try done.
    intros g' [Hn| ->]; apply F; [|by right].
    left. intros Hin. apply Hn. by right.
  - cbn [fst]. destruct (status_gate_keeps now g st) as (A & T & C & M & W & O & F).
    destruct (IH (fst (status_gate now g st))) as (A' & T' & C' & M' & W' & O' & F').
    split_and!; try congruence.
    intros g' Hg'.
    assert (Hne : g' ≠ g).
    { destruct Hg' as [Hn| ->]; [|congruence]. intros ->. apply Hn. by left. }
    assert (Hrest : g' ∉ gates ∨ g' = "Temple").
    { destruct Hg' as [Hn|?]; [left|by right]. intros Hin. apply Hn. by right. }
    destruct (F' g' Hrest) as [-> ->]. by apply F.
Qed.

Lemma status_loop_pops gates now : ∀ st g d rest,
  NoDup gates → g ∈ gates → g ≠ "Temple" →
  camera_queues st !! g = Some (d :: rest) →
  camera_queues (fst (status_loop gates now st)) !! g = Some rest
  ∧ camera_last_update (fst (status_loop gates now st)) !! g = Some now.
Proof.
  induction gates as [|g0 gates IH]; intros st g d rest Hnd Hin HT Hq; [inversion Hin|].
  apply NoDup_cons in Hnd as [Hn0 Hnd].
  cbn [status_loop]. destruct (String.eqb_spec g0 "Temple") as [->|HT0].
  - apply elem_of_cons in Hin as [->|Hin]; [done|]. by eapply IH.
  - cbn [fst]. apply elem_of_cons in Hin as [->|Hin].
    + destruct (status_loop_keeps gates now (fst (status_gate now g0 st)))
        as (_ & _ & _ & _ & _ & _ & F).
      destruct (F g0 (or_introl Hn0)) as [-> ->].
      unfold status_gate. rewrite Hq. cbn. by rewrite !lookup_insert_eq.
    + assert (g ≠ g0) by (by intros ->).
      eapply IH; try done.
      destruct (status_gate_keeps now g0 st) as (_ & _ & _ & _ & _ & _ & F).
      destruct (F g H) as [-> _]. exact Hq.
Qed.

Lemma gate_keys_NoDup : NoDup (map fst GATE_CONFIG).
Proof. cbn. repeat (apply NoDup_cons; split; [set_solver|]). apply NoDup_nil_2. Qed.

(** X8: a poll takes exactly the oldest waiting item of a configured
    gate other than 'Temple': the entry of the reply carries that item's
    count, status, frame and error, the rest of the queue stays in order for
    the next polls, and the gate's last-update time becomes the time of the
    poll. *)
Theorem status_pops_oldest (now : Z) (st : State) (g : string) (d : GateStatus)
    (rest : list GateStatus) :
  g ∈ map fst GATE_CONFIG → g ≠ "Temple" →
  camera_queues st !! g = Some (d :: rest) →
  let r := get_camera_status now st in
  (∃ s, entry_of g (snd r) = Some s
        ∧ s_count s = r_count d ∧ s_status s = r_status d
        ∧ s_frame s = default "" (r_frame d) ∧ s_error s = default "" (r_error d)
        ∧ s_timestamp s = Some (default now (r_timestamp d))
        ∧ s_is_mobile s = Some (default false (r_is_mobile d)))
  ∧ camera_queues (fst r) !! g = Some rest
  ∧ camera_last_update (fst r) !! g = Some now.
Proof.
  intros Hin HT Hq. cbn zeta. unfold get_camera_status. split.
  - rewrite status_loop_entry by done. eexists. split; [done|].
    unfold status_gate. rewrite Hq. by cbn.
  - by eapply status_loop_pops; [apply gate_keys_NoDup|..].
Qed.

Lemma status_pops_oldest_witness :
  let st := run reconnect_while_blocked init in
  let d := {| r_error := None; r_count := 42; r_status := normal;
              r_frame := Some "data:image/jpeg;base64,/9j/";
              r_timestamp := Some 5200; r_is_mobile := Some false |} in
  let r := get_camera_status 5300 st in
  (∃ s, entry_of "A" (snd r) = Some s
        ∧ s_count s = r_count d ∧ s_status s = r_status d
        ∧ s_frame s = default "" (r_frame d) ∧ s_error s = default "" (r_error d)
        ∧ s_timestamp s = Some (default 5300 (r_timestamp d))
        ∧ s_is_mobile s = Some (default false (r_is_mobile d)))
  ∧ camera_queues (fst r) !! "A" = Some []
  ∧ camera_last_update (fst r) !! "A" = Some 5300.
Proof.
  apply (status_pops_oldest 5300 (run reconnect_while_blocked init) "A").
  - cbn. apply elem_of_cons. by left.
  - discriminate.
  - vm_compute. reflexivity.
Defined.

(** X9: the status query changes nothing but the queues and last-update
    times of the gates it reports: the session table, the thread map, the
    capture map, the mobile registry and the workers are as before, and for
    'Temple' and for every gate outside GATE_CONFIG the queue and the
    last-update time are untouched, so what a worker publishes for such a
    gate is never consumed. *)
Theorem status_is_read_only (now : Z) (st : State) :
  let st' := fst (get_camera_status now st) in
  active_cameras st' = active_cameras st
  ∧ camera_threads st' = camera_threads st
  ∧ camera_captures st' = camera_captures st
  ∧ mobile_devices st' = mobile_devices st
  ∧ workers st' = workers st
  ∧ open_caps st' = open_caps st
  ∧ ∀ g, (config_get GATE_CONFIG g = None ∨ g = "Temple") →
         camera_queues st' !! g = camera_queues st !! g
         ∧ camera_last_update st' !! g = camera_last_update st !! g.
Proof.
  cbn zeta. unfold get_camera_status.
  destruct (status_loop_keeps (map fst GATE_CONFIG) now st) as (A & T & C & M & W & O & F).
  split_and!; try done.
  intros g [Hc| ->]; apply F; [|by right]. left.
  intros Hin. revert Hc. unfold GATE_CONFIG in *. cbn in Hin |- *.
  repeat (apply elem_of_cons in Hin as [->|Hin]; [discriminate|]).
  inversion Hin.
Qed.

(** ** Connecting and reconnecting *)

Lemma worker_frame_length g st st' :
  worker_frame g st st' → length (workers st') = length (workers st).
Proof.
  intros (_ & _ & _ & _ & W & _). apply (f_equal length) in W.
  by rewrite !length_fmap in W.
Qed.

Lemma elem_of_live_workers g st tid :
  tid ∈ live_workers g st
  ↔ ∃ w, workers st !! tid = Some w ∧ w_gate_id w = g ∧ w_pc w ≠ Stopped.
Proof.
  unfold live_workers. rewrite list_elem_of_filter, elem_of_seq. split.
  - intros [H _]. destruct (workers st !! tid) as [w|]; [|done].
    apply bool_decide_eq_true in H. by exists w.
  - intros (w & Hw & Hg & Hpc). rewrite Hw. split.
    + by apply bool_decide_eq_true.
    + apply lookup_lt_Some in Hw. lia.
Qed.

(** The source the new worker is given (lines 403-408). *)
Lemma connect_camera_effect data now sched st g :
  threads_wf st → q_gate_id data = Some g → g ≠ "" →
  let st1 := if bool_decide (is_Some (active_cameras st !! g))
             then signal_and_join g sched st else st in
  let mobile := if String.eqb (q_camera_type data) "mobile" then q_stream_url data else None in
  let st' := fst (connect_camera data now sched st) in
  snd (connect_camera data now sched st) = success
  ∧ active_cameras st' = <[g := true]> (active_cameras st)
  ∧ camera_queues st' = <[g := []]> (camera_queues st1)
  ∧ camera_last_update st' = <[g := now]> (camera_last_update st)
  ∧ camera_threads st' = <[g := length (workers st)]> (camera_threads st)
  ∧ camera_captures st' = camera_captures st1
  ∧ open_caps st' = open_caps st1
  ∧ workers st'
    = workers st1
      ++ [new_worker g (worker_source data)]
  ∧ length (workers st1) = length (workers st)
  ∧ mobile_devices st'
    = match mobile with
      | Some url => <[g := {| stream_url := url; m_device_name := None;
                              registered_at := None |}]> (mobile_devices st)
      | None => mobile_devices st
      end.
Proof.
  intros Hwf Hg Hne. cbn zeta. unfold connect_camera. rewrite Hg.
  rewrite (proj2 (String.eqb_neq g "")) by done.
  set (st1 := if bool_decide _ then _ else st).
  assert (H1 : active_cameras st1 = active_cameras st
               ∨ active_cameras st1 = <[g := false]> (active_cameras st)).
  { unfold st1. case_bool_decide; [right|by left].
    by destruct (signal_and_join_frame g sched st Hwf) as (-> & _). }
  assert (H2 : camera_threads st1 = camera_threads st
               ∧ camera_last_update st1 = camera_last_update st
               ∧ mobile_devices st1 = mobile_devices st
               ∧ length (workers st1) = length (workers st)).
  { unfold st1. case_bool_decide; [|done].
    pose proof (signal_and_join_frame g sched st Hwf) as Hf.
    pose proof (worker_frame_length _ _ _ Hf) as Hl.
    destruct Hf as (_ & -> & -> & -> & _). done. }
  destruct H2 as (T & L & M & Hl).
  assert (HA : <[g := true]> (active_cameras st1) = <[g := true]> (active_cameras st)).
  { destruct H1 as [-> | ->]; [done|]. by rewrite insert_insert_eq. }
  unfold worker_source.
  destruct (if String.eqb (q_camera_type data) "mobile" then q_stream_url data else None);
    cbn; rewrite HA, T, L, M, Hl; by split_and!.
Qed.

(** X10: a connect for a non-empty gate id answers success and starts a
    fresh session: the gate is marked active, has a new empty queue (what
    was waiting is dropped), the time of the request as last update, and a
    new thread (numbered after all existing ones) that has not run yet.
    When the request is of type mobile and its body has the key
    'stream_url', whatever the value (null included), the value is stored
    as the gate's mobile registration and the new worker's source is
    'mobile'; otherwise the worker is given the request's camera source and
    the mobile registry is left as it is.  No other gate's flag, queue,
    thread, capture or last-update entry changes. *)
Theorem connect_starts_session (data : ConnectRequest) (now : Z) (sched : list Env)
    (st : State) (g : string) :
  threads_wf st → q_gate_id data = Some g → g ≠ "" →
  let st' := fst (connect_camera data now sched st) in
  snd (connect_camera data now sched st) = success
  ∧ active_cameras st' !! g = Some true
  ∧ camera_queues st' !! g = Some []
  ∧ camera_last_update st' !! g = Some now
  ∧ camera_threads st' !! g = Some (length (workers st))
  ∧ (∀ v, q_camera_type data = "mobile" → q_stream_url data = Some v →
       workers st' !! length (workers st) = Some (new_worker g "mobile")
       ∧ mobile_devices st'
         = <[g := {| stream_url := v; m_device_name := None; registered_at := None |}]>
             (mobile_devices st))
  ∧ (q_camera_type data ≠ "mobile" ∨ q_stream_url data = None →
       workers st' !! length (workers st) = Some (new_worker g (q_camera_source data))
       ∧ mobile_devices st' = mobile_devices st)
  ∧ ∀ g', g' ≠ g →
      active_cameras st' !! g' = active_cameras st !! g'
      ∧ camera_queues st' !! g' = camera_queues st !! g'
      ∧ camera_threads st' !! g' = camera_threads st !! g'
      ∧ camera_captures st' !! g' = camera_captures st !! g'
      ∧ camera_last_update st' !! g' = camera_last_update st !! g'.
Proof.
  intros Hwf Hg Hne. cbn zeta.
  destruct (connect_camera_effect data now sched st g Hwf Hg Hne)
    as (R & A & Q & L & T & C & _ & W & Hl & M).
  cbn zeta in M. unfold worker_source in W.
  rewrite R, A, Q, L, T, C, W, M. split_and!; try (by rewrite lookup_insert_eq).
  - done.
  - intros v Ht Hv. rewrite Ht, Hv. cbn. split; [|done].
    rewrite <- Hl. by apply list_lookup_middle.
  - intros [Ht | Hv].
    + rewrite (proj2 (String.eqb_neq _ _) Ht). split; [|done].
      rewrite <- Hl. by apply list_lookup_middle.
    + rewrite Hv. destruct (String.eqb _ _); (split; [|done]);
        rewrite <- Hl; by apply list_lookup_middle.
  - intros g' Hg'. rewrite !lookup_insert_ne by done. split_and!; try done;
      case_bool_decide; try done;
      destruct (signal_and_join_frame g sched st Hwf) as (_ & _ & _ & _ & _ & _ & F);
      by apply F.
Qed.

Lemma connect_starts_session_witness :
  let data := null_stream_request "A" "1" in
  let st' := fst (connect_camera data 5000 [] two_sessions) in
  snd (connect_camera data 5000 [] two_sessions) = success
  ∧ active_cameras st' !! "A" = Some true
  ∧ camera_queues st' !! "A" = Some []
  ∧ camera_last_update st' !! "A" = Some 5000
  ∧ camera_threads st' !! "A" = Some (length (workers two_sessions))
  ∧ (∀ v, q_camera_type data = "mobile" → q_stream_url data = Some v →
       workers st' !! length (workers two_sessions) = Some (new_worker "A" "mobile")
       ∧ mobile_devices st'
         = <["A" := {| stream_url := v; m_device_name := None; registered_at := None |}]>
             (mobile_devices two_sessions))
  ∧ (q_camera_type data ≠ "mobile" ∨ q_stream_url data = None →
       workers st' !! length (workers two_sessions)
       = Some (new_worker "A" (q_camera_source data))
       ∧ mobile_devices st' = mobile_devices two_sessions)
  ∧ ∀ g', g' ≠ "A" →
      active_cameras st' !! g' = active_cameras two_sessions !! g'
      ∧ camera_queues st' !! g' = camera_queues two_sessions !! g'
      ∧ camera_threads st' !! g' = camera_threads two_sessions !! g'
      ∧ camera_captures st' !! g' = camera_captures two_sessions !! g'
      ∧ camera_last_update st' !! g' = camera_last_update two_sessions !! g'.
Proof.
  apply (connect_starts_session (null_stream_request "A" "1") 5000 [] two_sessions "A").
  - apply reachable_wf. eexists. reflexivity.
  - reflexivity.
  - discriminate.
Defined.

(** X11: right after a connect of a configured gate other than 'Temple',
    the status query reports the gate as connected with the placeholder
    values: count 0, status disconnected, no frame and no error, until the
    new worker publishes. *)
Theorem connect_then_status (data : ConnectRequest) (now now' : Z) (sched : list Env)
    (st : State) (g : string) :
  threads_wf st → q_gate_id data = Some g → g ∈ map fst GATE_CONFIG → g ≠ "Temple" →
  ∃ s, entry_of g (snd (get_camera_status now' (fst (connect_camera data now sched st))))
       = Some s
       ∧ s_connected s = true ∧ s_count s = 0 ∧ s_status s = disconnected
       ∧ s_frame s = "" ∧ s_error s = "".
Proof.
  intros Hwf Hg Hin HT.
  assert (Hne : g ≠ "").
  { intros ->. cbn in Hin. repeat (apply elem_of_cons in Hin as [Hin|Hin]; [discriminate|]).
    inversion Hin. }
  destruct (connect_camera_effect data now sched st g Hwf Hg Hne)
    as (_ & A & Q & _). cbn zeta in A, Q.
  unfold get_camera_status. rewrite status_loop_entry by done.
  eexists. split; [done|]. unfold status_gate. rewrite A, Q, !lookup_insert_eq.
  by cbn.
Qed.

Lemma connect_then_status_witness :
  ∃ s, entry_of "A" (snd (get_camera_status 1200
                            (fst (connect_camera (webcam_request "A" "0") 1000 [] init))))
       = Some s
       ∧ s_connected s = true ∧ s_count s = 0 ∧ s_status s = disconnected
       ∧ s_frame s = "" ∧ s_error s = "".
Proof.
  apply (connect_then_status (webcam_request "A" "0") 1000 1200 [] init "A").
  - apply wf_init.
  - reflexivity.
  - cbn. apply elem_of_cons. by left.
  - discriminate.
Defined.

Lemma join_stopped tid sched st w :
  workers st !! tid = Some w → w_pc w = Stopped → join tid sched st = st.
Proof.
  intros Hw Hpc. destruct sched as [|e sched]; [done|].
  cbn [join]. unfold is_alive. rewrite Hw, Hpc. done.
Qed.

(** A worker in its loop that is signalled and then gets to take a step
    within the join leaves the loop at that step. *)
Lemma signal_and_join_stops g t w e sched st :
  threads_wf st → camera_threads st !! g = Some t →
  workers st !! t = Some w → w_pc w = Running →
  workers (signal_and_join g (e :: sched) st) = <[t := w_stop w]> (workers st).
Proof.
  intros Hwf Ht Hw Hpc.
  assert (Hg : w_gate_id w = g).
  { specialize (Hwf _ _ Ht). rewrite Hw in Hwf. by injection Hwf. }
  unfold signal_and_join. cbn. rewrite Ht. cbn [join].
  set (st0 := with_active _ st).
  assert (Hw0 : workers st0 !! t = Some w) by done.
  unfold is_alive. rewrite Hw0, Hpc. cbn.
  rewrite (worker_step_running t w e st0 Hw0 Hpc).
  assert (Hit : iterate t w e st0 = worker_exit t w st0).
  { unfold iterate. rewrite bool_decide_eq_false_2; [done|].
    unfold st0. cbn. rewrite Hg, lookup_insert_eq. discriminate. }
  rewrite Hit.
  rewrite (join_stopped t sched _ (w_stop w));
    [exact (workers_worker_exit t w st0)| |done].
  by eapply worker_exit_stopped.
Qed.

(** X12: when the gate's registered worker is in its loop, is the only
    live worker of the gate, and gets to take a step within the join of a
    second connect, it ends there, and after the connect the new thread is
    the only live worker of the gate. *)
Theorem reconnect_with_join_has_one_worker (data : ConnectRequest) (now : Z) (e : Env)
    (sched : list Env) (st : State) (g : string) (t : nat) (w : Worker) :
  threads_wf st → q_gate_id data = Some g → g ≠ "" →
  is_Some (active_cameras st !! g) → camera_threads st !! g = Some t →
  workers st !! t = Some w → w_pc w = Running →
  (∀ tid, tid ∈ live_workers g st → tid = t) →
  let st' := fst (connect_camera data now (e :: sched) st) in
  w_pc <$> workers st' !! t = Some Stopped
  ∧ ∀ tid, tid ∈ live_workers g st' ↔ tid = length (workers st).
Proof.
  intros Hwf Hg Hne Ha Ht Hw Hpc Honly. cbn zeta.
  destruct (connect_camera_effect data now (e :: sched) st g Hwf Hg Hne)
    as (_ & _ & _ & _ & _ & _ & _ & W & Hl & _).
  cbn zeta in W, Hl. rewrite bool_decide_eq_true_2 in W, Hl by done.
  rewrite (signal_and_join_stops g t w e sched st Hwf Ht Hw Hpc) in W, Hl.
  assert (Hlt : (t < length (workers st))%nat) by by eapply lookup_lt_Some.
  assert (Hst : <[t := w_stop w]> (workers st) !! t = Some (w_stop w))
    by by apply list_lookup_insert_eq.
  split.
  - rewrite W, (lookup_app_l_Some _ _ _ _ Hst). done.
  - intros tid. rewrite elem_of_live_workers, W. split.
    + intros (w' & Hw' & Hg' & Hpc').
      apply lookup_app_Some in Hw' as [Hw'|[Hge Hw']].
      * exfalso. destruct (decide (t = tid)) as [->|Hn].
        -- rewrite Hst in Hw'. injection Hw' as <-. by apply Hpc'.
        -- rewrite list_lookup_insert_ne in Hw' by done.
           apply Hn. symmetry. apply Honly. apply elem_of_live_workers. by exists w'.
      * rewrite length_insert in Hge, Hw'.
        apply lookup_lt_Some in Hw' as Hlt'. cbn in Hlt'. lia.
    + intros ->. exists (new_worker g (worker_source data)). split_and!; [|done|done].
      rewrite <- Hl at 1. by apply list_lookup_middle.
Qed.

Lemma reconnect_with_join_has_one_worker_witness :
  let st' := fst (connect_camera (webcam_request "A" "1") 5000
                    (sample_env 5000 true :: []) sample_session) in
  w_pc <$> workers st' !! 0%nat = Some Stopped
  ∧ ∀ tid, tid ∈ live_workers "A" st' ↔ tid = length (workers sample_session).
Proof.
  apply (reconnect_with_join_has_one_worker (webcam_request "A" "1") 5000
           (sample_env 5000 true) [] sample_session "A" 0 sample_worker).
  - apply reachable_wf. eexists. reflexivity.
  - reflexivity.
  - discriminate.
  - vm_compute. eexists. reflexivity.
  - vm_compute. reflexivity.
  - vm_compute. reflexivity.
  - reflexivity.
  - intros tid Hin. vm_compute in Hin.
    apply elem_of_cons in Hin as [->|Hin]; [reflexivity|inversion Hin].
Defined.

(** ** Disconnecting *)





(** ** The mobile registry *)

(** X15: a successful registration leaves every session as it is and
    makes the status query report the gate as a mobile camera under the
    registered device name; a later connect of type mobile with a stream
    address replaces the whole registration, so the status query then
    reports the default name 'Mobile Device', and the new worker is told to
    use the source 'mobile'. *)
Theorem mobile_connect_drops_device_name (st : State) (g u u2 name : string)
    (now now2 now3 : Z) (sched : list Env) :
  threads_wf st → g ∈ map fst GATE_CONFIG → g ≠ "Temple" → u ≠ "" →
  let r1 := register_mobile (Some g) (Some u) (Some name) true now st in
  let r2 := connect_camera (mobile_request g u2) now2 sched (fst r1) in
  snd r1 = success
  ∧ workers (fst r1) = workers st ∧ active_cameras (fst r1) = active_cameras st
  ∧ camera_queues (fst r1) = camera_queues st
  ∧ (∃ s, entry_of g (snd (get_camera_status now3 (fst r1))) = Some s
          ∧ s_camera_type s = "mobile" ∧ s_device_name s = Some name)
  ∧ mobile_devices (fst r2) !! g
    = Some {| stream_url := JString u2; m_device_name := None; registered_at := None |}
  ∧ workers (fst r2) !! length (workers st) = Some (new_worker g "mobile")
  ∧ (∃ s, entry_of g (snd (get_camera_status now3 (fst r2))) = Some s
          ∧ s_camera_type s = "mobile" ∧ s_device_name s = Some "Mobile Device").
Proof.
  intros Hwf Hin HT Hu. cbn zeta.
  assert (Hne : g ≠ "").
  { intros ->. cbn in Hin. repeat (apply elem_of_cons in Hin as [Hin|Hin]; [discriminate|]).
    inversion Hin. }
  unfold register_mobile.
  rewrite (proj2 (String.eqb_neq g "")), (proj2 (String.eqb_neq u "")) by done.
  cbn [orb negb fst snd].
  set (st1 := with_mobile _ st).
  assert (Hwf1 : threads_wf st1) by exact Hwf.
  destruct (connect_camera_effect (mobile_request g u2) now2 sched st1 g Hwf1 eq_refl Hne)
    as (_ & _ & _ & _ & _ & _ & _ & W & Hl & M0).
  cbn zeta in W, Hl, M0.
  assert (M : mobile_devices (fst (connect_camera (mobile_request g u2) now2 sched st1))
              = <[g := {| stream_url := JString u2; m_device_name := None;
                          registered_at := None |}]> (mobile_devices st1))
    by (rewrite M0; reflexivity).
  assert (W' : workers (fst (connect_camera (mobile_request g u2) now2 sched st1))
               !! length (workers st) = Some (new_worker g "mobile")).
  { rewrite W. change (length (workers st)) with (length (workers st1)).
    rewrite <- Hl. by apply list_lookup_middle. }
  clear M0 W.
  split_and!; try done.
  - unfold get_camera_status. rewrite status_loop_entry by done.
    eexists. split; [done|]. unfold status_gate, st1. cbn. rewrite lookup_insert_eq.
    by destruct (camera_queues st !! g) as [[|? ?]|].
  - by rewrite M, lookup_insert_eq.
  - unfold get_camera_status. rewrite status_loop_entry by done.
    eexists. split; [done|]. unfold status_gate. rewrite M, lookup_insert_eq.
    by destruct (camera_queues _ !! g) as [[|? ?]|].
Qed.

Lemma mobile_connect_drops_device_name_witness :
  let r1 := register_mobile (Some "A") (Some "http://10.0.0.7:8080/video")
              (Some "Lobby phone") true 100 init in
  let r2 := connect_camera (mobile_request "A" "http://10.0.0.8:8080/video") 200 []
              (fst r1) in
  snd r1 = success
  ∧ workers (fst r1) = workers init ∧ active_cameras (fst r1) = active_cameras init
  ∧ camera_queues (fst r1) = camera_queues init
  ∧ (∃ s, entry_of "A" (snd (get_camera_status 300 (fst r1))) = Some s
          ∧ s_camera_type s = "mobile" ∧ s_device_name s = Some "Lobby phone")
  ∧ mobile_devices (fst r2) !! "A"
    = Some {| stream_url := JString "http://10.0.0.8:8080/video"; m_device_name := None;
              registered_at := None |}
  ∧ workers (fst r2) !! length (workers init) = Some (new_worker "A" "mobile")
  ∧ (∃ s, entry_of "A" (snd (get_camera_status 300 (fst r2))) = Some s
          ∧ s_camera_type s = "mobile" ∧ s_device_name s = Some "Mobile Device").
Proof.
  apply (mobile_connect_drops_device_name init "A" "http://10.0.0.7:8080/video"
           "http://10.0.0.8:8080/video" "Lobby phone" 100 200 300 []).
  - apply wf_init.
  - cbn. apply elem_of_cons. by left.
  - discriminate.
  - discriminate.
Defined.

(** ** The health check *)

Lemma health_gate_unfold now g sched st :
  health_gate now g sched st
  = if needs_restart now g st then
      let st1 := signal_and_join g sched st in
      let st2 := with_queues (<[g := []]> (camera_queues st1)) st1 in
      spawn g "mobile" (with_active (<[g := true]> (active_cameras st2)) st2)
    else st.
Proof.
  unfold health_gate, needs_restart.
  destruct (bool_decide _ && _); [|done]. cbn [andb].
  destruct (camera_last_update st !! g); [|done]. by destruct (_ >? _).
Qed.

Lemma health_gate_effect now g sched st :
  threads_wf st →
  let st' := health_gate now g sched st in
  camera_last_update st' = camera_last_update st
  ∧ mobile_devices st' = mobile_devices st
  ∧ (∀ g', g' ≠ g →
       active_cameras st' !! g' = active_cameras st !! g'
       ∧ camera_queues st' !! g' = camera_queues st !! g'
       ∧ camera_threads st' !! g' = camera_threads st !! g')
  ∧ (if needs_restart now g st then
       active_cameras st' !! g = Some true ∧ camera_queues st' !! g = Some []
       ∧ camera_threads st' !! g = Some (length (workers st))
       ∧ length (workers st') = S (length (workers st))
     else st' = st).
Proof.
  intros Hwf. cbn zeta. rewrite health_gate_unfold.
  destruct (needs_restart now g st); [|done]. cbn zeta.
  pose proof (signal_and_join_frame g sched st Hwf) as Hf.
  pose proof (worker_frame_length _ _ _ Hf) as Hl. cbn in Hl.
  destruct Hf as (A & T & L & M & _ & _ & F). cbn in A, T, L, M, F.
  cbn. rewrite A, T, L, M, Hl. split_and!; try done.
  - intros g' Hne. rewrite !lookup_insert_ne by done. split_and!; try done. by apply F.
  - by rewrite lookup_insert_eq.
  - by rewrite lookup_insert_eq.
  - by rewrite lookup_insert_eq.
  - rewrite length_app. cbn. lia.
Qed.

Lemma needs_restart_ext now g st st' :
  active_cameras st' !! g = active_cameras st !! g →
  camera_queues st' !! g = camera_queues st !! g →
  camera_last_update st' = camera_last_update st →
  needs_restart now g st' = needs_restart now g st.
Proof. intros A Q L. unfold needs_restart. by rewrite A, Q, L. Qed.

Lemma count_stale_ext now gids st st' :
  (∀ g, g ∈ gids → needs_restart now g st' = needs_restart now g st) →
  count_stale now gids st' = count_stale now gids st.
Proof.
  induction gids as [|g gids IH]; intros H; [done|].
  cbn [count_stale]. rewrite H by (apply elem_of_cons; by left).
  rewrite IH; [done|]. intros g' Hin. apply H. apply elem_of_cons. by right.
Qed.

Lemma health_fold now scheds gids : ∀ st,
  NoDup gids → wf st →
  let st' := foldl (λ s g, health_gate now g (scheds g) s) st gids in
  camera_last_update st' = camera_last_update st
  ∧ mobile_devices st' = mobile_devices st
  ∧ length (workers st') = (length (workers st) + count_stale now gids st)%nat
  ∧ (∀ g, g ∉ gids ∨ needs_restart now g st = false →
       active_cameras st' !! g = active_cameras st !! g
       ∧ camera_queues st' !! g = camera_queues st !! g
       ∧ camera_threads st' !! g = camera_threads st !! g)
  ∧ (∀ g, g ∈ gids → needs_restart now g st = true →
       active_cameras st' !! g = Some true ∧ camera_queues st' !! g = Some []
       ∧ ∃ t, camera_threads st' !! g = Some t ∧ (length (workers st) ≤ t)%nat).
Proof.
  induction gids as [|g0 gids IH]; intros st Hnd Hwf; cbn zeta.
  - cbn. split_and!; try done; try lia. intros g Hin. inversion Hin.
  - apply NoDup_cons in Hnd as [Hn0 Hnd]. cbn [foldl].
    set (st1 := health_gate now g0 (scheds g0) st).
    destruct (health_gate_effect now g0 (scheds g0) st (proj1 Hwf)) as (L1 & M1 & F1 & R1).
    fold st1 in L1, M1, F1, R1.
    destruct (IH st1 Hnd (health_gate_wf _ _ _ _ Hwf)) as (L & M & W & F & R).
    assert (Hext : ∀ g, g ≠ g0 → needs_restart now g st1 = needs_restart now g st).
    { intros g Hne. destruct (F1 g Hne) as (A & Q & _). by apply needs_restart_ext. }
    split_and!; try congruence.
    + rewrite W. rewrite (count_stale_ext now gids st st1)
        by (intros g Hin; apply Hext; by intros ->).
      cbn [count_stale]. destruct (needs_restart now g0 st).
      * destruct R1 as (_ & _ & _ & ->). lia.
      * rewrite R1. lia.
    + intros g Hg.
      destruct (decide (g = g0)) as [->|Hne].
      * destruct Hg as [Hg|Hg]; [exfalso; apply Hg; apply elem_of_cons; by left|].
        rewrite Hg in R1. destruct (F g0 (or_introl Hn0)) as (-> & -> & ->).
        by rewrite R1.
      * destruct (F1 g Hne) as (A1 & Q1 & T1).
        destruct (F g) as (A & Q & T).
        { destruct Hg as [Hg|Hg]; [left|right].
          - intros Hin. apply Hg. apply elem_of_cons. by right.
          - by rewrite Hext. }
        by rewrite A, Q, T.
    + intros g Hin Hr. apply elem_of_cons in Hin as [->|Hin].
      * rewrite Hr in R1. destruct R1 as (A1 & Q1 & T1 & _).
        destruct (F g0 (or_introl Hn0)) as (-> & -> & ->).
        split_and!; try done. by eexists.
      * assert (Hne : g ≠ g0) by (by intros ->).
        destruct (R g Hin) as (A & Q & t & T & Ht); [by rewrite Hext|].
        split_and!; try done. exists t. split; [done|].
        destruct (needs_restart now g0 st).
        -- destruct R1 as (_ & _ & _ & Hl). lia.
        -- by rewrite R1 in Ht.
Qed.

(** X16: one pass of the health check writes neither the last-update
    times nor the mobile registry; it starts exactly one new thread for
    each registered gate that is marked active, has an empty queue and was
    last updated more than ten seconds ago, and marks that gate active with
    a fresh queue; the flag, queue and thread of every other gate (not
    registered, or not stale) are unchanged. *)
Theorem health_check_scope (now : Z) (scheds : string → list Env) (st : State) :
  wf st →
  let st' := check_mobile_camera_health now scheds st in
  let registered := elements (dom (mobile_devices st)) in
  camera_last_update st' = camera_last_update st
  ∧ mobile_devices st' = mobile_devices st
  ∧ length (workers st') = (length (workers st) + count_stale now registered st)%nat
  ∧ (∀ g, g ∉ dom (mobile_devices st) ∨ needs_restart now g st = false →
       active_cameras st' !! g = active_cameras st !! g
       ∧ camera_queues st' !! g = camera_queues st !! g
       ∧ camera_threads st' !! g = camera_threads st !! g)
  ∧ (∀ g, g ∈ dom (mobile_devices st) → needs_restart now g st = true →
       active_cameras st' !! g = Some true ∧ camera_queues st' !! g = Some []
       ∧ ∃ t, camera_threads st' !! g = Some t ∧ (length (workers st) ≤ t)%nat).
Proof.
  intros Hwf. cbn zeta. unfold check_mobile_camera_health.
  destruct (health_fold now scheds (elements (dom (mobile_devices st))) st
              (NoDup_elements _) Hwf) as (L & M & W & F & R). cbn zeta in *.
  split_and!; try done.
  - intros g Hg. apply F. destruct Hg as [Hg|Hg]; [left|by right].
    by rewrite elem_of_elements.
  - intros g Hg. apply R. by rewrite elem_of_elements.
Qed.

Lemma health_check_scope_witness :
  let st := run stalled_mobile init in
  let st' := check_mobile_camera_health 12000 no_progress st in
  let registered := elements (dom (mobile_devices st)) in
  camera_last_update st' = camera_last_update st
  ∧ mobile_devices st' = mobile_devices st
  ∧ length (workers st') = (length (workers st) + count_stale 12000 registered st)%nat
  ∧ (∀ g, g ∉ dom (mobile_devices st) ∨ needs_restart 12000 g st = false →
       active_cameras st' !! g = active_cameras st !! g
       ∧ camera_queues st' !! g = camera_queues st !! g
       ∧ camera_threads st' !! g = camera_threads st !! g)
  ∧ (∀ g, g ∈ dom (mobile_devices st) → needs_restart 12000 g st = true →
       active_cameras st' !! g = Some true ∧ camera_queues st' !! g = Some []
       ∧ ∃ t, camera_threads st' !! g = Some t ∧ (length (workers st) ≤ t)%nat).
Proof.
  apply (health_check_scope 12000 no_progress (run stalled_mobile init)).
  apply reachable_wf. eexists. reflexivity.
Defined.

(** ** Workers and the session table; process exit *)

Lemma worker_step_sessions tid e st :
  active_cameras (worker_step tid e st) = active_cameras st
  ∧ camera_threads (worker_step tid e st) = camera_threads st
  ∧ camera_last_update (worker_step tid e st) = camera_last_update st
  ∧ mobile_devices (worker_step tid e st) = mobile_devices st
  ∧ dom (camera_queues (worker_step tid e st)) = dom (camera_queues st)
  ∧ w_gate_id <$> workers (worker_step tid e st) = w_gate_id <$> workers st.
Proof.
  destruct (workers st !! tid) as [w|] eqn:Hw.
  - destruct (worker_step_frame tid e st (w_gate_id w)) as (A & T & L & M & W & D & _);
      [by rewrite Hw|]. done.
  - unfold worker_step. by rewrite Hw.
Qed.

(** X17: no step of any worker, in any interleaving, changes the session
    table, the thread map, the last-update times or the mobile registry, or
    adds or removes a queue.  In particular a worker that ends on its own
    (open failure, retry limit, exception) leaves its gate marked active. *)
Theorem workers_keep_session_table (steps : list (nat * Env)) (st : State) :
  let st' := foldl (λ s te, worker_step (fst te) (snd te) s) st steps in
  active_cameras st' = active_cameras st
  ∧ camera_threads st' = camera_threads st
  ∧ camera_last_update st' = camera_last_update st
  ∧ mobile_devices st' = mobile_devices st
  ∧ dom (camera_queues st') = dom (camera_queues st)
  ∧ length (workers st') = length (workers st).
Proof.
  cbn zeta. revert st. induction steps as [|[t e] steps IH]; intros st; [done|].
  cbn [foldl fst snd].
  destruct (worker_step_sessions t e st) as (A & T & L & M & D & W).
  destruct (IH (worker_step t e st)) as (A' & T' & L' & M' & D' & W').
  apply (f_equal length) in W. rewrite !length_fmap in W.
  split_and!; congruence.
Qed.




(** ** The detector and the URL probe *)




(** X20: test_camera_url reports a URL as not accessible in three cases
    only: an http(s) URL whose server answers with a status other than 200,
    an rtsp URL whose capture does not open, and a URL that begins with
    neither 'http' nor 'rtsp'.  So an http URL whose request fails (no
    answer) is reported accessible. *)
Theorem test_camera_url_rejects (url : string) (p : Probe) :
  test_camera_url url p = false
  ↔ (String.prefix "http" url = true ∧ ∃ code, p_http_status p = Some code ∧ code ≠ 200)
    ∨ (String.prefix "http" url = false ∧ String.prefix "rtsp" url = true
       ∧ p_raises p = false ∧ p_rtsp_opened p = false)
    ∨ (String.prefix "http" url = false ∧ String.prefix "rtsp" url = false).
Proof.
  unfold test_camera_url.
  destruct (String.prefix "http" url); [|destruct (String.prefix "rtsp" url)].
  - destruct (p_http_status p) as [code|]; split.
    + intros H. left. split; [done|]. exists code. split; [done|].
      by apply Z.eqb_neq.
    + intros [(_ & c & [= <-] & Hc)|[(? & _)|(? & _)]]; try done. by apply Z.eqb_neq.
    + done.
    + intros [(_ & c & ? & _)|[(? & _)|(? & _)]]; done.
  - destruct (p_raises p), (p_rtsp_opened p); split; try done;
      try (intros [(? & _)|[(_ & _ & ? & ?)|(_ & ?)]]; done).
    intros _. right. left. done.
  - split; [intros _; right; right; done|done].
Qed.

(** ** The thread map *)

(** X21: through any sequence of requests, health-check passes and
    worker steps, the thread registered for a gate in camera_threads is a
    thread that exists and was started for that gate: every assignment to
    camera_threads[gate_id] stores a thread created with that gate id, new
    threads are numbered after the existing ones, and no thread changes its
    gate. *)
Theorem registered_thread_invariant (st : State) (g : string) (t : nat) :
  reachable st → camera_threads st !! g = Some t →
  ∃ w, workers st !! t = Some w ∧ w_gate_id w = g.
Proof.
  intros Hr Hgt. pose proof (reachable_wf st Hr) as Hwf.
  pose proof (proj1 Hwf g t Hgt) as Hw.
  destruct (workers st !! t) as [w|]; [|done]. exists w. split; [done|].
  by injection Hw.
Qed.

Lemma registered_thread_invariant_witness :
  ∃ w, workers two_sessions !! 1%nat = Some w ∧ w_gate_id w = "B".
Proof.
  apply (registered_thread_invariant two_sessions "B" 1).
  - eexists. reflexivity.
  - vm_compute. reflexivity.
Defined.
